(** * Package.ts: the package registration API of dgeni

    A shallow embedding of [src/Package.ts] and the properties of its
    construction and registration operations.

    Scope of the embedding.
    - JavaScript values are the type [jsval]: the primitives, arrays, plain
      data objects and functions.  Numbers are the integer-valued ones.
    - A function carries its declared name, which is a string, as the
      [name] member of the standard [Function] interface is declared.
    - The objects [module] and [handlers] are created by [{}]: they have
      own members and the prototype [Object.prototype].  A read finds an
      own member first and an inherited one otherwise; an assignment makes
      an own member, except under the name [__proto__], where it installs
      the value as the prototype.
    - Where the source goes on to call a function the caller supplied (a
      [toString] of an object used as a member name, say), or to print an
      integer of 22 digits or more, the embedding stops: the outcome
      [Outside] says so and nothing is claimed about what follows.
    - A method mutates [this] and may throw.  A method is a function from
      the package before the call to an outcome together with the package
      as it is when the call returns or throws, so that a mutation made
      before a throw stays visible. *)

From Stdlib Require Import Ascii String.
From stdpp Require Import base strings list gmap pretty.

Set Warnings "-register-all".

Open Scope string_scope.

(** ** Values *)

Inductive jsval : Type :=
| VUndefined
| VNull
| VBool (b : bool)
| VNum (n : Z)
| VStr (s : string)
| VArr (elems : list jsval)
| VObj (props : list (string * jsval))
| VFun (fname : string) (src : string) (props : list (string * jsval)).

(** The two characters the messages of the source contain that a string
    literal here cannot. *)
Definition nl : string := String "010"%char EmptyString.
Definition dq : string := String "034"%char EmptyString.

(** [typeof v] *)
Definition typeof (v : jsval) : string :=
  match v with
  | VUndefined => "undefined"
  | VNull => "object"
  | VBool _ => "boolean"
  | VNum _ => "number"
  | VStr _ => "string"
  | VArr _ => "object"
  | VObj _ => "object"
  | VFun _ _ _ => "function"
  end.

(** [!!v]: the truth value of [v] in a condition. *)
Definition truthy (v : jsval) : bool :=
  match v with
  | VUndefined | VNull => false
  | VBool b => b
  | VNum n => negb (n =? 0)%Z
  | VStr s => negb (String.eqb s EmptyString)
  | VArr _ | VObj _ | VFun _ _ _ => true
  end.

(** [Array.isArray(v)] *)
Definition isArray (v : jsval) : bool :=
  match v with VArr _ => true | _ => false end.

(** The string a value of type string holds. *)
Definition str (v : jsval) : string :=
  match v with VStr s => s | _ => EmptyString end.

(** ** Exceptions *)

Inductive exn : Type :=
| Error (message : string)   (* [throw new Error(message)] in the source *)
| TypeError                  (* raised by the runtime *)
| Outside (v : jsval).       (* not an exception: the step to take on [v],
                                the call of the caller's function [v] or the
                                printing of the number [v], is outside the
                                embedding *)

(** ** Conversion to a string *)

(** Lookup in a list of own data members, first binding first. *)
Fixpoint own_member (k : string) (ps : list (string * jsval)) : option jsval :=
  match ps with
  | [] => None
  | (k', v) :: r => if String.eqb k k' then Some v else own_member k r
  end.

Definition assoc (k : string) (ps : list (string * jsval)) : jsval :=
  default VUndefined (own_member k ps).

(** An integer below [10^21] in magnitude prints in plain decimal digits;
    from there on a number prints with an exponent. *)
Definition decimal (n : Z) : exn + string :=
  if (Z.abs n <? 10 ^ 21)%Z then inr (pretty n) else inl (Outside (VNum n)).

(** The preference of a conversion to a primitive: [toString] first, for a
    member name or [String(v)]; [valueOf] first, for an operand of [+]. *)
Inductive hint : Type := HintString | HintDefault.

(** The conversion of an object with the own members [ps] whose inherited
    [toString] gives [base].  The two methods are tried in the order of
    the hint.  A method that is an own member is called when it is a
    function and passed over when it is not; the inherited [valueOf] gives
    back the object and is passed over; with no method left the conversion
    throws. *)
Definition object_to_string (h : hint) (ps : list (string * jsval)) (base : string)
  : exn + string :=
  let by_toString (next : exn + string) :=
    match own_member "toString" ps with
    | None => inr base
    | Some m => if String.eqb (typeof m) "function" then inl (Outside m) else next
    end in
  let by_valueOf (next : exn + string) :=
    match own_member "valueOf" ps with
    | None => next
    | Some m => if String.eqb (typeof m) "function" then inl (Outside m) else next
    end in
  match h with
  | HintString => by_toString (by_valueOf (inl TypeError))
  | HintDefault => by_valueOf (by_toString (inl TypeError))
  end.

(** The conversion of [v] to a string: [String(v)], the name of a member
    [o[v]], the operand [v] of a concatenation.  An array joins the
    conversions of its elements with commas, [null] and [undefined] giving
    the empty string; a plain object gives the default tag; a function
    gives its source text. *)
Fixpoint to_string (h : hint) (v : jsval) {struct v} : exn + string :=
  match v with
  | VUndefined => inr "undefined"
  | VNull => inr "null"
  | VBool true => inr "true"
  | VBool false => inr "false"
  | VNum n => decimal n
  | VStr s => inr s
  | VArr l =>
      let fix join (l : list jsval) : exn + list string :=
        match l with
        | [] => inr []
        | x :: r =>
            match
              match x with
              | VUndefined | VNull => inr EmptyString
              | _ => to_string HintString x
              end
            with
            | inl e => inl e
            | inr s =>
                match join r with
                | inl e => inl e
                | inr ss => inr (s :: ss)
                end
            end
        end in
      match join l with
      | inl e => inl e
      | inr ss => inr (String.concat "," ss)
      end
  | VObj ps => object_to_string h ps "[object Object]"
  | VFun _ src ps => object_to_string h ps src
  end.

(** ** Members *)

(** The element of an array-like whose index prints as [k]. *)
Fixpoint at_index (k : string) (i : nat) (l : list jsval) : jsval :=
  match l with
  | [] => VUndefined
  | x :: r => if String.eqb k (pretty i) then x else at_index k (S i) r
  end.

(** Own member [k] of a value that is neither [null] nor [undefined]. *)
Definition get_own (v : jsval) (k : string) : jsval :=
  match v with
  | VObj ps => assoc k ps
  | VFun n _ ps => if String.eqb k "name" then VStr n else assoc k ps
  | VArr l =>
      if String.eqb k "length" then VNum (Z.of_nat (length l))
      else at_index k 0 l
  | VStr s =>
      if String.eqb k "length" then VNum (Z.of_nat (String.length s))
      else at_index k 0
             (map (fun c => VStr (String c EmptyString)) (list_ascii_of_string s))
  | _ => VUndefined
  end.

(** [v.k]: reading a member of [null] or [undefined] throws. *)
Definition get_prop (v : jsval) (k : string) : exn + jsval :=
  match v with
  | VUndefined | VNull => inl TypeError
  | _ => inr (get_own v k)
  end.

(** ** The prototype of an object made by [{}] *)

(** A function of the runtime, with its name and its number of
    parameters. *)
Definition builtin (n : string) (len : Z) : jsval :=
  VFun n ("function " ++ n ++ "() { [native code] }") [("length", VNum len)].

(** The members of [Object.prototype]. *)
Definition object_prototype_members : list (string * jsval) :=
  [("constructor", builtin "Object" 1);
   ("__defineGetter__", builtin "__defineGetter__" 2);
   ("__defineSetter__", builtin "__defineSetter__" 2);
   ("hasOwnProperty", builtin "hasOwnProperty" 1);
   ("__lookupGetter__", builtin "__lookupGetter__" 1);
   ("__lookupSetter__", builtin "__lookupSetter__" 1);
   ("isPrototypeOf", builtin "isPrototypeOf" 1);
   ("propertyIsEnumerable", builtin "propertyIsEnumerable" 1);
   ("toString", builtin "toString" 0);
   ("valueOf", builtin "valueOf" 0);
   ("toLocaleString", builtin "toLocaleString" 0)].

Definition object_prototype : jsval := VObj object_prototype_members.

(** What reading [o[k]] finds when [o], made by [{}], has no own member
    [k]: the member of [Object.prototype], which under [__proto__] is the
    prototype itself, and [undefined] when there is none. *)
Definition inherited (k : string) : jsval :=
  if String.eqb k "__proto__" then object_prototype
  else assoc k object_prototype_members.

(** [o[k]] for [o] with the own members [m]. *)
Definition member (m : gmap string jsval) (k : string) : jsval :=
  match m !! k with
  | Some v => v
  | None => inherited k
  end.

(** ** The helpers at the end of the source file *)

Definition isObject (value : jsval) : bool :=
  let type := typeof value in
  truthy value && (String.eqb type "object" || String.eqb type "function").

Definition isString (value : jsval) : bool :=
  String.eqb (typeof value) "string".

(** ** The package object *)

(** The tag of an entry of the module, ['factory' | 'type' | 'value']. *)
Inductive InjectionType : Type := IFactory | IType | IValue.

(** The fields of [class Package].  The two-element arrays stored in
    [module] are pairs.  The name of a constructed package is a string
    (the constructor throws otherwise) and [name] holds that string.
    [handlers] and [module] hold the own members of the two objects;
    [module_proto] is the array an assignment to [module.__proto__] has
    installed as the prototype of [module], if there was one. *)
Record Package : Type := {
  name : string;
  dependencies : jsval;
  processors : list jsval;
  configFns : list jsval;
  handlers : gmap string jsval;
  module : gmap string (InjectionType * jsval);
  module_proto : option (InjectionType * jsval)
}.

(** A package whose [module] has the prototype [{}] gives it. *)
Definition mkPackage (name : string) (dependencies : jsval)
    (processors configFns : list jsval) (handlers : gmap string jsval)
    (module : gmap string (InjectionType * jsval)) : Package :=
  Build_Package name dependencies processors configFns handlers module None.

Definition set_processors (f : list jsval -> list jsval) (this : Package) : Package :=
  Build_Package (name this) (dependencies this) (f (processors this)) (configFns this)
                (handlers this) (module this) (module_proto this).

Definition set_configFns (f : list jsval -> list jsval) (this : Package) : Package :=
  Build_Package (name this) (dependencies this) (processors this) (f (configFns this))
                (handlers this) (module this) (module_proto this).

Definition set_handlers
    (f : gmap string jsval -> gmap string jsval) (this : Package) : Package :=
  Build_Package (name this) (dependencies this) (processors this) (configFns this)
                (f (handlers this)) (module this) (module_proto this).

Definition set_module
    (f : gmap string (InjectionType * jsval) -> gmap string (InjectionType * jsval))
    (this : Package) : Package :=
  Build_Package (name this) (dependencies this) (processors this) (configFns this)
                (handlers this) (f (module this)) (module_proto this).

Definition set_module_proto (p : option (InjectionType * jsval)) (this : Package)
  : Package :=
  Build_Package (name this) (dependencies this) (processors this) (configFns this)
                (handlers this) (module this) p.

(** [this.module[k] = ent].  Under an own member the assignment replaces
    it, and under any name but [__proto__] it makes one; under [__proto__]
    with no own member of that name it runs the setter of
    [Object.prototype], which installs the array [ent] as the prototype
    and makes no member. *)
Definition assign_module (k : string) (ent : InjectionType * jsval) (this : Package)
  : Package :=
  match String.eqb k "__proto__", module this !! k with
  | true, None => set_module_proto (Some ent) this
  | _, _ => set_module <[k := ent]> this
  end.

(** [this.handlers[k] = v] where [v] is what [this.handlers[k] || []] has
    just given.  Under [__proto__] with no own member of that name, [v] is
    the prototype that was read and the setter installs it again: nothing
    changes. *)
Definition assign_handlers (k : string) (v : jsval) (m : gmap string jsval)
  : gmap string jsval :=
  match String.eqb k "__proto__", m !! k with
  | true, None => m
  | _, _ => <[k := v]> m
  end.

(** [a.push(x)] on the value an array variable holds. *)
Definition pushed (x : jsval) (a : jsval) : jsval :=
  match a with
  | VArr l => VArr (l ++ [x])%list
  | _ => a
  end.

(** ** Methods: state and exceptions *)

Definition M (A : Type) : Type := Package -> (exn + A) * Package.

Definition ret {A : Type} (a : A) : M A := fun this => (inr a, this).

Definition throw {A : Type} (e : exn) : M A := fun this => (inl e, this).

Definition lift {A : Type} (r : exn + A) : M A := fun this => (r, this).

Definition bind {A B : Type} (m : M A) (k : A -> M B) : M B :=
  fun this =>
    match m this with
    | (inl e, this') => (inl e, this')
    | (inr a, this') => k a this'
    end.

Definition get : M Package := fun this => (inr this, this).

Definition modify (f : Package -> Package) : M unit := fun this => (inr tt, f this).

Declare Scope method_scope.
Delimit Scope method_scope with method.
Notation "x <- m ;; k" := (bind m (fun x => k))
  (at level 100, m at next level, right associativity) : method_scope.
Notation "m ;; k" := (bind m (fun _ => k))
  (at level 100, right associativity) : method_scope.
Open Scope method_scope.

(** [new Package(name, dependencies)].  An omitted or [undefined]
    [dependencies] takes the default [[]]; the field initialisers give the
    four empty containers. *)
Definition constructor (name dependencies : jsval) : exn + Package :=
  let dependencies :=
    match dependencies with VUndefined => VArr [] | _ => dependencies end in
  if negb (String.eqb (typeof name) "string")
  then inl (Error "You must provide a name for the package")
  else if truthy dependencies && negb (isArray dependencies)
  then inl (Error "dependencies must be an array")
  else inr (mkPackage (str name) dependencies [] [] ∅ ∅).

(** [Package.isPackage(pkg)] *)
Definition isPackage (pkg : jsval) : exn + bool :=
  match get_prop pkg "name" with
  | inl e => inl e
  | inr n =>
      if isString n then
        match get_prop pkg "dependencies" with
        | inl e => inl e
        | inr d =>
            if isArray d then
              match get_prop pkg "module" with
              | inl e => inl e
              | inr m => inr (isObject m)
              end
            else inr false
        end
      else inr false
  end.

(** [processor(processorDefOrName, processorDef?)].  The name becomes a
    member name at the assignment to [this.module[name]]. *)
Definition processor (processorDefOrName processorDef : jsval) : M Package :=
  r <- (if isString processorDefOrName
        then ret (processorDefOrName, processorDef)
        else
          let processorDef := processorDefOrName in
          n <- lift (get_prop processorDef "name") ;;
          if negb (truthy n)
          then throw (Error "processorDef must be an object or a function with a name")
          else ret (n, processorDef)) ;;
  let name := fst r in
  let processorDef := snd r in
  key <- lift (to_string HintString name) ;;
  (if String.eqb (typeof processorDef) "function"
   then modify (assign_module key (IFactory, processorDef))
   else modify (assign_module key (IValue, processorDef))) ;;
  modify (set_processors (fun l => (l ++ [name])%list)) ;;
  get.

(** [factory(serviceFactoryOrName, serviceFactory?)] *)
Definition factory (serviceFactoryOrName serviceFactory : jsval) : M Package :=
  r <- (if String.eqb (typeof serviceFactoryOrName) "string"
        then ret (serviceFactoryOrName, serviceFactory)
        else
          let serviceFactory := serviceFactoryOrName in
          n <- lift (get_prop serviceFactory "name") ;;
          if negb (truthy n)
          then throw (Error "serviceFactory must have a name")
          else ret (n, serviceFactory)) ;;
  let name := fst r in
  let serviceFactory := snd r in
  if negb (String.eqb (typeof serviceFactory) "function")
  then throw (Error ("serviceFactory must be a function." ++ nl ++ "Got " ++ dq
                       ++ typeof serviceFactory ++ dq))
  else
    key <- lift (to_string HintString name) ;;
    modify (assign_module key (IFactory, serviceFactory)) ;;
    get.

(** [type(ServiceTypeOrName, ServiceType?)] *)
Definition type (ServiceTypeOrName ServiceType : jsval) : M Package :=
  r <- (if String.eqb (typeof ServiceTypeOrName) "string"
        then ret (ServiceTypeOrName, ServiceType)
        else
          let ServiceType := ServiceTypeOrName in
          n <- lift (get_prop ServiceType "name") ;;
          if negb (truthy n)
          then throw (Error "ServiceType must have a name")
          else ret (n, ServiceType)) ;;
  let name := fst r in
  let ServiceType := snd r in
  if negb (String.eqb (typeof ServiceType) "function")
  then throw (Error "ServiceType must be a constructor function")
  else
    key <- lift (to_string HintString name) ;;
    modify (assign_module key (IType, ServiceType)) ;;
    get.

(** [config(configFn)] *)
Definition config (configFn : jsval) : M Package :=
  if negb (String.eqb (typeof configFn) "function")
  then throw (Error "configFn must be a function")
  else
    modify (set_configFns (fun l => (l ++ [configFn])%list)) ;;
    get.

(** [handlers.push(handlerName)] at the end of [eventHandler], [handlers]
    being the value [found] that was read from, and stored under,
    [this.handlers[key]].  An array is extended where it is stored; a
    value of another kind has no [push] unless it is an own member, which
    is called when it is a function. *)
Definition push (key : string) (found handlerName : jsval) : M unit :=
  match found with
  | VArr _ => modify (set_handlers (alter (pushed handlerName) key))
  | _ =>
      let p := get_own found "push" in
      if String.eqb (typeof p) "function" then throw (Outside p) else throw TypeError
  end.

(** [eventHandler(eventName, handlerFactory)].  The value bound to the
    local [handlers] is the one stored under [this.handlers[eventName]]. *)
Definition eventHandler (eventName handlerFactory : jsval) : M Package :=
  if negb (String.eqb (typeof eventName) "string")
  then throw (Error "You must provide a string identifying the type of event to handle")
  else if negb (String.eqb (typeof handlerFactory) "function")
  then throw (Error ("handlerFactory must be a function." ++ nl ++ "Got " ++ dq
                       ++ typeof handlerFactory ++ dq))
  else
    this <- get ;;
    let key := str eventName in
    let found := member (handlers this) key in
    let handlers0 := if truthy found then found else VArr [] in
    modify (set_handlers (assign_handlers key handlers0)) ;;
    fname <- lift (get_prop handlerFactory "name") ;;
    handlerName <-
      (if truthy fname then ret fname
       else
         n <- lift (to_string HintDefault (get_own handlers0 "length")) ;;
         ret (VStr (name this ++ "_" ++ str eventName ++ "_" ++ n))) ;;
    factory handlerName handlerFactory ;;
    push key handlers0 handlerName ;;
    get.

(** ** Calls and runs *)

(** A registration call on a package; an omitted argument is [VUndefined]. *)
Inductive call : Type :=
| CallProcessor (processorDefOrName processorDef : jsval)
| CallFactory (serviceFactoryOrName serviceFactory : jsval)
| CallType (ServiceTypeOrName ServiceType : jsval)
| CallConfig (configFn : jsval)
| CallEventHandler (eventName handlerFactory : jsval).

Definition run_call (c : call) : M Package :=
  match c with
  | CallProcessor a b => processor a b
  | CallFactory a b => factory a b
  | CallType a b => type a b
  | CallConfig f => config f
  | CallEventHandler e f => eventHandler e f
  end.

(** Run a sequence of calls, each on the package the previous one left;
    [None] as soon as one of them does not return. *)
Fixpoint run_calls (cs : list call) (this : Package) : option Package :=
  match cs with
  | [] => Some this
  | c :: rest =>
      match run_call c this with
      | (inr _, this') => run_calls rest this'
      | (inl _, _) => None
      end
  end.

(** The package after a run of calls, each made on the package the
    previous one left, whether that one returned or threw. *)
Fixpoint run_all (cs : list call) (this : Package) : Package :=
  match cs with
  | [] => this
  | c :: rest => run_all rest (run_call c this).2
  end.

(** ** Notions the properties are stated with *)

(** The name [n] and the definition [d] that the opening block of
    [processor], [factory] and [type] settles on for the arguments [a] and
    [b]: a string first argument is the name and [b] the definition;
    otherwise [a] is the definition and its truthy [name] the name. *)
Definition resolved (a b n d : jsval) : Prop :=
  (isString a = true /\ n = a /\ d = b) \/
  (isString a = false /\ d = a /\ get_prop a "name" = inr n /\ truthy n = true).

(** The entry [processor] writes for the definition [d]. *)
Definition processor_entry (d : jsval) : InjectionType * jsval :=
  (if String.eqb (typeof d) "function" then IFactory else IValue, d).

(** The entry that reading [this.module[k]] finds, when it finds one a
    registration has written: the own member [k], and under [__proto__]
    with no own member the array installed as the prototype. *)
Definition registered (this : Package) (k : string) : option (InjectionType * jsval) :=
  match module this !! k with
  | Some ent => Some ent
  | None => if String.eqb k "__proto__" then module_proto this else None
  end.

(** What [this.handlers[e] || []] gives. *)
Definition found_handlers (this : Package) (e : string) : jsval :=
  let found := member (handlers this) e in
  if truthy found then found else VArr [].

(** The event [e] has a list of handlers on the package, or none yet and
    nothing inherited in its place. *)
Definition plain_event (this : Package) (e : string) : Prop :=
  isArray (found_handlers this e) = true.

(** The handlers listed for [e]: the elements of [this.handlers[e] || []]
    when that is an array. *)
Definition handlers_of (this : Package) (e : string) : list jsval :=
  match found_handlers this e with
  | VArr l => l
  | _ => []
  end.

(** The name [eventHandler] registers a handler under, given the name of
    the package, the event, the declared name of the factory and the
    handlers the event has so far. *)
Definition handler_name (p e fn : string) (hs : list jsval) : string :=
  if String.eqb fn EmptyString
  then p ++ "_" ++ e ++ "_" ++ pretty (Z.of_nat (length hs))
  else fn.

(** The name the [i]-th handler of an event gets, [i] counting every
    handler the event already has on the package [p]. *)
Definition nth_handler_name (p e : string) (i : nat) (fn : string) : jsval :=
  if decide (fn = EmptyString) then VStr (p ++ "_" ++ e ++ "_" ++ pretty i) else VStr fn.

(** The calls that write one entry of the module under a resolved name. *)
Definition is_registration (c : call) : bool :=
  match c with
  | CallProcessor _ _ | CallFactory _ _ | CallType _ _ => true
  | CallConfig _ | CallEventHandler _ _ => false
  end.

(** A call whose name argument, when it has one, is not the empty string,
    and which, for a processor definition given alone, finds a string
    under its [name]. *)
Definition well_named (c : call) : bool :=
  match c with
  | CallProcessor a _ =>
      if isString a then truthy a else isString (get_own a "name")
  | CallFactory a _ | CallType a _ =>
      if isString a then truthy a else true
  | CallConfig _ | CallEventHandler _ _ => true
  end.

(** A value that is an object (an array is one) or a function. *)
Definition object_or_callable (v : jsval) : Prop :=
  match v with
  | VArr _ | VObj _ | VFun _ _ _ => True
  | _ => False
  end.

(** Every key of the module is a non-empty string. *)
Definition nonempty_keys (this : Package) : Prop :=
  forall k : string, is_Some (module this !! k) -> k <> EmptyString.



(** The package as the object [isPackage] is handed: the fields of the
    class as its own members, an entry of [module] as the two-element
    array the methods store. *)
Definition tag (k : InjectionType) : string :=
  match k with IFactory => "factory" | IType => "type" | IValue => "value" end.

Definition entry_value (ent : InjectionType * jsval) : jsval :=
  VArr [VStr (tag ent.1); ent.2].

Definition as_value (this : Package) : jsval :=
  VObj [("processors", VArr (processors this));
        ("configFns", VArr (configFns this));
        ("handlers", VObj (map_to_list (handlers this)));
        ("module", VObj (map_to_list (entry_value <$> module this)));
        ("name", VStr (name this));
        ("dependencies", dependencies this)].

(** An own member [v] of [handlers] under [e] is as the methods leave
    it: a list, not empty, of non-empty strings that name entries of
    [module]; or the member of [Object.prototype] of the same name, left
    there by a call that threw. *)
Definition member_listed (this : Package) (e : string) (v : jsval) : Prop :=
  (exists hs : list jsval,
      v = VArr hs /\ hs <> [] /\
      forall h : jsval, h ∈ hs ->
        exists s : string,
          h = VStr s /\ s <> EmptyString /\ is_Some (registered this s)) \/
  (v = inherited e /\ isArray v = false).

(** Every name listed in [processors] names an entry of [module], and
    every own member of [handlers] is as the methods leave it. *)
Definition listed_names_registered (this : Package) : Prop :=
  (forall n : jsval, n ∈ processors this ->
     exists k : string, to_string HintString n = inr k /\ is_Some (registered this k)) /\
  (forall (e : string) (v : jsval),
      handlers this !! e = Some v -> member_listed this e v).

(** No underscore among the characters of a string. *)
Fixpoint no_underscore (s : string) : bool :=
  match s with
  | EmptyString => true
  | String c r => negb (Ascii.eqb c "_"%char) && no_underscore r
  end.

(** What one call does to the package, whatever its outcome: nothing; the
    writes of a successful [processor], [factory], [type] or [config]; or
    the writes of [eventHandler] up to the point it reached, the store of
    what it found under the event, the registration of the factory, the
    push of the name. *)
Inductive effect (this : Package) : Package -> Prop :=
| effect_none : effect this this
| effect_processor (n d : jsval) (k : string) :
    to_string HintString n = inr k ->
    effect this
      (set_processors (fun l => (l ++ [n])%list) (assign_module k (processor_entry d) this))
| effect_service (k : string) (ent : InjectionType * jsval) :
    effect this (assign_module k ent this)
| effect_config (f : jsval) :
    effect this (set_configFns (fun l => (l ++ [f])%list) this)
| effect_found (e : string) (x : exn) :
    to_string HintDefault (get_own (found_handlers this e) "length") = inl x ->
    effect this (set_handlers (assign_handlers e (found_handlers this e)) this)
| effect_registered (e h : string) (f : jsval) :
    h <> EmptyString ->
    isArray (found_handlers this e) = false ->
    effect this
      (assign_module h (IFactory, f)
         (set_handlers (assign_handlers e (found_handlers this e)) this))
| effect_pushed (e h : string) (f : jsval) (l : list jsval) :
    h <> EmptyString ->
    found_handlers this e = VArr l ->
    effect this
      (set_handlers <[e := VArr (l ++ [VStr h])%list]>
         (assign_module h (IFactory, f) this)).

(** Sample values: a package named [core] as the constructor leaves it,
    an anonymous function and two named ones. *)
Definition core : Package := mkPackage "core" (VArr []) [] [] ∅ ∅.
Definition anon : jsval := VFun EmptyString "function () {}" [].
Definition myHandler : jsval := VFun "myHandler" "function myHandler() {}" [].
Definition foo : jsval := VFun "foo" "function foo() {}" [].

Ltac run_method :=
  unfold bind, ret, throw, lift, get, modify; simpl.

(** ** Basic facts about values *)

Lemma isString_VStr (v : jsval) : isString v = true <-> exists s, v = VStr s.
Proof.
  split.
  - destruct v; simpl; try discriminate. eauto.
  - intros [s ->]. reflexivity.
Qed.

Lemma typeof_string (v : jsval) :
  String.eqb (typeof v) "string" = true <-> exists s, v = VStr s.
Proof. apply isString_VStr. Qed.

Lemma typeof_function (v : jsval) :
  String.eqb (typeof v) "function" = true <-> exists n s ps, v = VFun n s ps.
Proof.
  split.
  - destruct v; simpl; try discriminate. eauto.
  - intros (n & s & ps & ->). reflexivity.
Qed.

Lemma typeof_function_eq (v : jsval) :
  String.eqb (typeof v) "function" = true <-> typeof v = "function".
Proof. apply String.eqb_eq. Qed.

Lemma typeof_string_eq (v : jsval) :
  String.eqb (typeof v) "string" = true <-> typeof v = "string".
Proof. apply String.eqb_eq. Qed.

Lemma truthy_VStr (s : string) : truthy (VStr s) = true <-> s <> EmptyString.
Proof.
  simpl. rewrite negb_true_iff. split.
  - intros H ->. discriminate.
  - intros H. apply String.eqb_neq. exact H.
Qed.

Lemma get_prop_own (v n : jsval) (k : string) :
  get_prop v k = inr n -> n = get_own v k.
Proof. destruct v; simpl; congruence. Qed.

Lemma pretty_Z_of_nat (n : nat) : pretty (Z.of_nat n) = pretty n.
Proof. destruct n; reflexivity. Qed.

Lemma decimal_small (n : Z) : (Z.abs n < 10 ^ 21)%Z -> decimal n = inr (pretty n).
Proof. intros H. unfold decimal. apply Z.ltb_lt in H. rewrite H. reflexivity. Qed.

Lemma decimal_inr (n : Z) (s : string) : decimal n = inr s -> s = pretty n.
Proof. unfold decimal. destruct (_ <? _)%Z; congruence. Qed.

Lemma decimal_not_Error (n : Z) (msg : string) : decimal n <> inl (Error msg).
Proof. unfold decimal. destruct (_ <? _)%Z; congruence. Qed.

Lemma object_to_string_not_Error
    (h : hint) (ps : list (string * jsval)) (base msg : string) :
  object_to_string h ps base <> inl (Error msg).
Proof.
  unfold object_to_string.
  destruct h, (own_member "toString" ps) as [m|], (own_member "valueOf" ps) as [m'|];
    try destruct (String.eqb (typeof m) "function");
    try destruct (String.eqb (typeof m') "function"); congruence.
Qed.

(** A conversion to a string throws nothing but a [TypeError]. *)
Lemma to_string_not_Error :
  forall (v : jsval) (h : hint) (msg : string), to_string h v <> inl (Error msg).
Proof.
  fix IH 1. intros [ | |[]|n|s|l|ps|fn src ps] h msg; simpl; try congruence.
  - apply decimal_not_Error.
  - assert (forall l : list jsval,
      (fix join (l : list jsval) : exn + list string :=
         match l with
         | [] => inr []
         | x :: r =>
             match
               match x with
               | VUndefined | VNull => inr EmptyString
               | _ => to_string HintString x
               end
             with
             | inl e => inl e
             | inr s =>
                 match join r with
                 | inl e => inl e
                 | inr ss => inr (s :: ss)
                 end
             end
         end) l <> inl (Error msg)) as Hjoin.
    { clear l. fix IHl 1. intros [|x r]; [congruence|].
      pose proof (IH x HintString msg) as Hx. pose proof (IHl r) as Hr.
      destruct x; simpl in *;
        repeat match goal with
               | |- context [match ?t with _ => _ end] => destruct t eqn:?
               end; congruence. }
    specialize (Hjoin l). destruct (_ l); congruence.
  - apply object_to_string_not_Error.
  - apply object_to_string_not_Error.
Qed.

Lemma to_string_VStr (h : hint) (s : string) : to_string h (VStr s) = inr s.
Proof. reflexivity. Qed.

(** ** Assignments to [module] *)

Lemma assign_module_fields (k : string) (ent : InjectionType * jsval) (this : Package) :
  name (assign_module k ent this) = name this /\
  dependencies (assign_module k ent this) = dependencies this /\
  processors (assign_module k ent this) = processors this /\
  configFns (assign_module k ent this) = configFns this /\
  handlers (assign_module k ent this) = handlers this.
Proof.
  unfold assign_module.
  destruct (String.eqb k "__proto__"), (module this !! k); simpl; auto.
Qed.

(** Away from [__proto__] an assignment is an insertion. *)
Lemma assign_module_plain (k : string) (ent : InjectionType * jsval) (this : Package) :
  k <> "__proto__" ->
  assign_module k ent this = set_module <[k := ent]> this.
Proof.
  intros Hk. unfold assign_module. apply String.eqb_neq in Hk. rewrite Hk. reflexivity.
Qed.

Lemma assign_module_keys (k k' : string) (ent : InjectionType * jsval) (this : Package) :
  is_Some (module (assign_module k ent this) !! k') ->
  k' = k \/ is_Some (module this !! k').
Proof.
  unfold assign_module.
  destruct (String.eqb k "__proto__"), (module this !! k) eqn:Hk; simpl; auto;
    intros H; apply lookup_insert_is_Some in H as [->|[_ H]]; auto.
Qed.

Lemma assign_module_keeps (k k' : string) (ent : InjectionType * jsval) (this : Package) :
  is_Some (module this !! k') -> is_Some (module (assign_module k ent this) !! k').
Proof.
  unfold assign_module.
  destruct (String.eqb k "__proto__"), (module this !! k) eqn:Hk; simpl; auto;
    intros H; apply lookup_insert_is_Some'; auto.
Qed.

(** What is assigned is what is read back. *)
Lemma registered_assign (k : string) (ent : InjectionType * jsval) (this : Package) :
  registered (assign_module k ent this) k = Some ent.
Proof.
  unfold registered, assign_module.
  destruct (String.eqb k "__proto__") eqn:Hk, (module this !! k) eqn:Hown; simpl;
    rewrite ?lookup_insert_eq, ?Hown, ?Hk; reflexivity.
Qed.

Lemma registered_assign_ne (k k' : string) (ent : InjectionType * jsval) (this : Package) :
  k' <> k -> registered (assign_module k ent this) k' = registered this k'.
Proof.
  intros Hne. unfold registered, assign_module.
  destruct (String.eqb k "__proto__") eqn:Hk, (module this !! k) eqn:Hown; simpl;
    rewrite ?lookup_insert_ne by done; try reflexivity.
  apply String.eqb_eq in Hk. subst k.
  destruct (module this !! k'); [reflexivity|].
  apply String.eqb_neq in Hne. rewrite Hne. reflexivity.
Qed.

Lemma registered_assign_keeps
    (k k' : string) (ent : InjectionType * jsval) (this : Package) :
  is_Some (registered this k') -> is_Some (registered (assign_module k ent this) k').
Proof.
  intros H. destruct (decide (k' = k)) as [->|Hne].
  - rewrite registered_assign. eauto.
  - by rewrite registered_assign_ne.
Qed.

Lemma assign_module_twice (k : string) (e1 e2 : InjectionType * jsval) (this : Package) :
  assign_module k e2 (assign_module k e1 this) = assign_module k e2 this.
Proof.
  unfold assign_module.
  destruct (String.eqb k "__proto__") eqn:Hk, (module this !! k) eqn:Hown; simpl;
    rewrite ?lookup_insert_eq, ?Hown; unfold set_module, set_module_proto; simpl;
    rewrite ?insert_insert_eq; reflexivity.
Qed.

(** ** The methods, case by case *)

Lemma resolved_fun (a b n d n' d' : jsval) :
  resolved a b n d -> resolved a b n' d' -> n = n' /\ d = d'.
Proof.
  intros [(Ha & -> & ->)|(Ha & -> & Hn & _)] [(Ha' & -> & ->)|(Ha' & -> & Hn' & _)];
    split; congruence.
Qed.

(** The name a function is registered under is a string. *)
Lemma resolved_function_name (a b n d : jsval) :
  resolved a b n d -> typeof d = "function" -> exists s, n = VStr s.
Proof.
  intros [(Ha & -> & ->)|(Ha & -> & Hn & Ht)] Hd.
  - by apply isString_VStr.
  - apply String.eqb_eq, typeof_function in Hd as (fn & src & ps & ->).
    injection Hn as <-. eauto.
Qed.

Lemma processor_ok (a b : jsval) (this r this' : Package) :
  processor a b this = (inr r, this') ->
  exists (n d : jsval) (k : string),
    resolved a b n d /\
    to_string HintString n = inr k /\
    this' = set_processors (fun l => (l ++ [n])%list)
              (assign_module k (processor_entry d) this) /\
    r = this'.
Proof.
  unfold processor, resolved, processor_entry. run_method.
  destruct (isString a) eqn:Ha; simpl.
  - destruct (to_string HintString a) as [x|k] eqn:Hk; simpl; [discriminate|].
    destruct (String.eqb (typeof b) "function") eqn:Hf; intros [= <- <-];
      exists a, b, k; rewrite Hf; intuition auto.
  - destruct (get_prop a "name") as [e|n] eqn:Hn; simpl; [discriminate|].
    destruct (truthy n) eqn:Ht; simpl; [|discriminate].
    destruct (to_string HintString n) as [x|k] eqn:Hk; simpl; [discriminate|].
    destruct (String.eqb (typeof a) "function") eqn:Hf; intros [= <- <-];
      exists n, a, k; rewrite Hf; intuition auto.
Qed.

Lemma processor_run (a b n d : jsval) (k : string) (this : Package) :
  resolved a b n d ->
  to_string HintString n = inr k ->
  let this' := set_processors (fun l => (l ++ [n])%list)
                 (assign_module k (processor_entry d) this) in
  processor a b this = (inr this', this').
Proof.
  intros [(Ha & -> & ->)|(Ha & -> & Hn & Ht)] Hk; unfold processor, processor_entry;
    run_method; rewrite Ha; simpl.
  - rewrite Hk. simpl. destruct (String.eqb (typeof b) "function"); reflexivity.
  - rewrite Hn. simpl. rewrite Ht. simpl. rewrite Hk. simpl.
    destruct (String.eqb (typeof a) "function"); reflexivity.
Qed.

Lemma processor_err (a b : jsval) (this this' : Package) (e : exn) :
  processor a b this = (inl e, this') -> this' = this.
Proof.
  unfold processor. run_method.
  destruct (isString a); simpl.
  - destruct (to_string HintString a); simpl; [congruence|].
    destruct (String.eqb (typeof b) "function"); discriminate.
  - destruct (get_prop a "name") as [e'|n]; simpl; [congruence|].
    destruct (truthy n); simpl; [|congruence].
    destruct (to_string HintString n); simpl; [congruence|].
    destruct (String.eqb (typeof a) "function"); discriminate.
Qed.

Lemma factory_ok (a b : jsval) (this r this' : Package) :
  factory a b this = (inr r, this') ->
  exists (s : string) (d : jsval),
    resolved a b (VStr s) d /\
    typeof d = "function" /\
    this' = assign_module s (IFactory, d) this /\
    r = this'.
Proof.
  unfold factory, resolved, isString. run_method.
  destruct (String.eqb (typeof a) "string") eqn:Ha; simpl.
  - destruct (String.eqb (typeof b) "function") eqn:Hf; simpl; [|discriminate].
    apply typeof_string in Ha as [s ->]. simpl.
    intros [= <- <-]. exists s, b. apply String.eqb_eq in Hf. intuition auto.
  - destruct (get_prop a "name") as [e|n] eqn:Hn; simpl; [discriminate|].
    destruct (truthy n) eqn:Ht; simpl; [|discriminate].
    destruct (String.eqb (typeof a) "function") eqn:Hf; simpl; [|discriminate].
    pose proof Hf as Hf'. apply typeof_function in Hf' as (fn & src & ps & ->).
    injection Hn as <-. simpl.
    intros [= <- <-]. exists fn, (VFun fn src ps). intuition auto.
Qed.

Lemma factory_run (a b n d : jsval) (this : Package) :
  resolved a b n d -> typeof d = "function" ->
  let this' := assign_module (str n) (IFactory, d) this in
  factory a b this = (inr this', this').
Proof.
  intros Hr Hd. apply String.eqb_eq in Hd.
  destruct Hr as [(Ha & -> & ->)|(Ha & -> & Hn & Ht)];
    unfold isString in Ha; unfold factory; run_method; rewrite Ha; simpl.
  - rewrite Hd. simpl. apply typeof_string in Ha as [s ->]. reflexivity.
  - rewrite Hn. simpl. rewrite Ht. simpl. rewrite Hd. simpl.
    apply typeof_function in Hd as (fn & src & ps & ->). injection Hn as <-.
    reflexivity.
Qed.

Lemma factory_err (a b : jsval) (this this' : Package) (e : exn) :
  factory a b this = (inl e, this') -> this' = this.
Proof.
  unfold factory. run_method.
  destruct (String.eqb (typeof a) "string"); simpl.
  - destruct (String.eqb (typeof b) "function"); simpl; [|congruence].
    destruct (to_string HintString a); simpl; congruence.
  - destruct (get_prop a "name") as [e'|n]; simpl; [congruence|].
    destruct (truthy n); simpl; [|congruence].
    destruct (String.eqb (typeof a) "function"); simpl; [|congruence].
    destruct (to_string HintString n); simpl; congruence.
Qed.

Lemma type_ok (a b : jsval) (this r this' : Package) :
  type a b this = (inr r, this') ->
  exists (s : string) (d : jsval),
    resolved a b (VStr s) d /\
    typeof d = "function" /\
    this' = assign_module s (IType, d) this /\
    r = this'.
Proof.
  unfold type, resolved, isString. run_method.
  destruct (String.eqb (typeof a) "string") eqn:Ha; simpl.
  - destruct (String.eqb (typeof b) "function") eqn:Hf; simpl; [|discriminate].
    apply typeof_string in Ha as [s ->]. simpl.
    intros [= <- <-]. exists s, b. apply String.eqb_eq in Hf. intuition auto.
  - destruct (get_prop a "name") as [e|n] eqn:Hn; simpl; [discriminate|].
    destruct (truthy n) eqn:Ht; simpl; [|discriminate].
    destruct (String.eqb (typeof a) "function") eqn:Hf; simpl; [|discriminate].
    pose proof Hf as Hf'. apply typeof_function in Hf' as (fn & src & ps & ->).
    injection Hn as <-. simpl.
    intros [= <- <-]. exists fn, (VFun fn src ps). intuition auto.
Qed.

Lemma type_run (a b n d : jsval) (this : Package) :
  resolved a b n d -> typeof d = "function" ->
  let this' := assign_module (str n) (IType, d) this in
  type a b this = (inr this', this').
Proof.
  intros Hr Hd. apply String.eqb_eq in Hd.
  destruct Hr as [(Ha & -> & ->)|(Ha & -> & Hn & Ht)];
    unfold isString in Ha; unfold type; run_method; rewrite Ha; simpl.
  - rewrite Hd. simpl. apply typeof_string in Ha as [s ->]. reflexivity.
  - rewrite Hn. simpl. rewrite Ht. simpl. rewrite Hd. simpl.
    apply typeof_function in Hd as (fn & src & ps & ->). injection Hn as <-.
    reflexivity.
Qed.

Lemma type_err (a b : jsval) (this this' : Package) (e : exn) :
  type a b this = (inl e, this') -> this' = this.
Proof.
  unfold type. run_method.
  destruct (String.eqb (typeof a) "string"); simpl.
  - destruct (String.eqb (typeof b) "function"); simpl; [|congruence].
    destruct (to_string HintString a); simpl; congruence.
  - destruct (get_prop a "name") as [e'|n]; simpl; [congruence|].
    destruct (truthy n); simpl; [|congruence].
    destruct (String.eqb (typeof a) "function"); simpl; [|congruence].
    destruct (to_string HintString n); simpl; congruence.
Qed.

Lemma config_ok (f : jsval) (this r this' : Package) :
  config f this = (inr r, this') ->
  typeof f = "function" /\
  this' = set_configFns (fun l => (l ++ [f])%list) this /\ r = this'.
Proof.
  unfold config. run_method.
  destruct (String.eqb (typeof f) "function") eqn:Hf; simpl; [|discriminate].
  intros [= <- <-]. apply String.eqb_eq in Hf. auto.
Qed.

Lemma config_err (f : jsval) (this this' : Package) (e : exn) :
  config f this = (inl e, this') -> this' = this.
Proof.
  unfold config. run_method.
  destruct (String.eqb (typeof f) "function"); simpl; congruence.
Qed.

(** [eventHandler] with a string and a function, stage by stage: the
    store of what was found, then, unless the made-up name cannot be
    built, the registration of the factory, then the push, which goes
    through on an array and throws on anything else. *)
Lemma eventHandler_eq (e fn src : string) (ps : list (string * jsval)) (this : Package) :
  eventHandler (VStr e) (VFun fn src ps) this =
  match (if String.eqb fn EmptyString
         then match to_string HintDefault (get_own (found_handlers this e) "length") with
              | inl x => inl x
              | inr n => inr (name this ++ "_" ++ e ++ "_" ++ n)
              end
         else inr fn) with
  | inl x => (inl x, set_handlers (assign_handlers e (found_handlers this e)) this)
  | inr h =>
      match found_handlers this e with
      | VArr _ =>
          (inr (set_handlers (alter (pushed (VStr h)) e)
                  (assign_module h (IFactory, VFun fn src ps)
                     (set_handlers (assign_handlers e (found_handlers this e)) this))),
           set_handlers (alter (pushed (VStr h)) e)
             (assign_module h (IFactory, VFun fn src ps)
                (set_handlers (assign_handlers e (found_handlers this e)) this)))
      | _ =>
          (inl (if String.eqb (typeof (get_own (found_handlers this e) "push")) "function"
                then Outside (get_own (found_handlers this e) "push")
                else TypeError),
           assign_module h (IFactory, VFun fn src ps)
             (set_handlers (assign_handlers e (found_handlers this e)) this))
      end
  end.
Proof.
  unfold eventHandler, factory, push, found_handlers. run_method.
  set (v := if truthy (member (handlers this) e) then member (handlers this) e else VArr []).
  destruct (String.eqb fn EmptyString) eqn:Hfn; simpl.
  - destruct (to_string HintDefault (get_own v "length")) as [x|n]; simpl; [reflexivity|].
    destruct v; simpl; try reflexivity;
      destruct (String.eqb _ "function"); reflexivity.
  - destruct v; simpl; try reflexivity;
      destruct (String.eqb _ "function"); reflexivity.
Qed.

Lemma eventHandler_shape (ev f : jsval) :
  String.eqb (typeof ev) "string" = true ->
  String.eqb (typeof f) "function" = true ->
  exists e fn src ps, ev = VStr e /\ f = VFun fn src ps.
Proof.
  intros [e ->]%typeof_string (fn & src & ps & ->)%typeof_function. eauto 6.
Qed.

Lemma inherited_not_array (e : string) : isArray (inherited e) = false.
Proof.
  unfold inherited, assoc, object_prototype_members, builtin. simpl.
  repeat (destruct (String.eqb e _); [reflexivity|]). reflexivity.
Qed.

(** An event with no own member in [handlers] and a list found for it
    has nothing inherited: the list is the new empty one. *)
Lemma found_handlers_new (this : Package) (e : string) (l : list jsval) :
  handlers this !! e = None -> found_handlers this e = VArr l -> l = [].
Proof.
  intros Hnone. unfold found_handlers, member. rewrite Hnone.
  pose proof (inherited_not_array e) as Hna.
  destruct (truthy (inherited e)) eqn:Ht.
  - intros H. rewrite H in Hna. discriminate.
  - intros [= <-]. reflexivity.
Qed.

Lemma found_handlers_array_assign (this : Package) (e : string) (l : list jsval) :
  found_handlers this e = VArr l ->
  assign_handlers e (VArr l) (handlers this) = <[e := VArr l]> (handlers this).
Proof.
  unfold found_handlers, assign_handlers, member, inherited.
  destruct (String.eqb e "__proto__") eqn:He; [|reflexivity].
  destruct (handlers this !! e); [reflexivity|]. simpl. discriminate.
Qed.

Lemma set_handlers_assign_module
    (g : gmap string jsval -> gmap string jsval) (k : string)
    (ent : InjectionType * jsval) (this : Package) :
  assign_module k ent (set_handlers g this) = set_handlers g (assign_module k ent this).
Proof.
  unfold assign_module. simpl.
  destruct (String.eqb k "__proto__"), (module this !! k); reflexivity.
Qed.

Lemma set_handlers_twice (g g' : gmap string jsval -> gmap string jsval) (this : Package) :
  set_handlers g (set_handlers g' this) = set_handlers (fun m => g (g' m)) this.
Proof. reflexivity. Qed.

Lemma handler_name_nonempty (p e fn : string) (hs : list jsval) :
  handler_name p e fn hs <> EmptyString.
Proof.
  unfold handler_name. destruct (String.eqb fn EmptyString) eqn:Hfn.
  - destruct p; discriminate.
  - by apply String.eqb_neq.
Qed.

(** On an event with a list of handlers, or none and nothing inherited,
    the call goes through, and this is the package it leaves. *)
Lemma eventHandler_run
    (e fn src : string) (ps : list (string * jsval)) (l : list jsval) (this : Package) :
  found_handlers this e = VArr l ->
  (fn = EmptyString -> (Z.of_nat (length l) < 10 ^ 21)%Z) ->
  let h := handler_name (name this) e fn l in
  let this' :=
    set_handlers <[e := VArr (l ++ [VStr h])%list]>
      (assign_module h (IFactory, VFun fn src ps) this) in
  eventHandler (VStr e) (VFun fn src ps) this = (inr this', this').
Proof.
  intros Hfound Hlen. rewrite eventHandler_eq, Hfound.
  assert ((if String.eqb fn EmptyString
           then match to_string HintDefault (get_own (VArr l) "length") with
                | inl x => inl x
                | inr n => inr (name this ++ "_" ++ e ++ "_" ++ n)
                end
           else inr fn) = inr (handler_name (name this) e fn l)) as ->.
  { unfold handler_name. destruct (String.eqb fn EmptyString) eqn:Hfn; [|reflexivity].
    apply String.eqb_eq in Hfn. simpl. rewrite decimal_small; [reflexivity|].
    specialize (Hlen Hfn). lia. }
  rewrite set_handlers_assign_module, set_handlers_twice.
  destruct (assign_module_fields (handler_name (name this) e fn l)
              (IFactory, VFun fn src ps) this) as (Hn & Hd & Hp & Hc & Hh).
  unfold set_handlers. rewrite Hh.
  rewrite (found_handlers_array_assign this e l Hfound), alter_insert_eq.
  reflexivity.
Qed.

(** A call that goes through was made with a string and a function on an
    event with a list of handlers, or none and nothing inherited. *)
Lemma eventHandler_ok (ev f : jsval) (this r this' : Package) :
  eventHandler ev f this = (inr r, this') ->
  exists (e fn src : string) (ps : list (string * jsval)) (l : list jsval),
    ev = VStr e /\ f = VFun fn src ps /\
    found_handlers this e = VArr l /\
    (fn = EmptyString -> (Z.of_nat (length l) < 10 ^ 21)%Z) /\
    this' =
      set_handlers <[e := VArr (l ++ [VStr (handler_name (name this) e fn l)])%list]>
        (assign_module (handler_name (name this) e fn l) (IFactory, f) this) /\
    r = this'.
Proof.
  destruct (String.eqb (typeof ev) "string") eqn:He.
  - destruct (String.eqb (typeof f) "function") eqn:Hf.
    + destruct (eventHandler_shape ev f He Hf) as (e & fn & src & ps & -> & ->).
      intros H.
      assert (exists l, found_handlers this e = VArr l /\
                        (fn = EmptyString -> (Z.of_nat (length l) < 10 ^ 21)%Z))
        as (l & Hfound & Hlen).
      { rewrite eventHandler_eq in H.
        destruct (found_handlers this e) as [| | | | |l| |] eqn:Hfound;
          try (destruct (String.eqb fn EmptyString);
               [destruct (to_string HintDefault _)|]; discriminate).
        exists l. split; [reflexivity|]. intros ->. simpl in H.
        unfold decimal in H. destruct (_ <? _)%Z eqn:Hb; [|discriminate].
        apply Z.ltb_lt in Hb. lia. }
      rewrite (eventHandler_run e fn src ps l this Hfound Hlen) in H.
      injection H as <- <-. exists e, fn, src, ps, l. auto 10.
    + unfold eventHandler. rewrite He, Hf. discriminate.
  - unfold eventHandler. rewrite He. discriminate.
Qed.



Lemma found_handlers_cases (this : Package) (e : string) :
  (exists v, handlers this !! e = Some v /\ truthy v = true /\ found_handlers this e = v) \/
  (handlers this !! e = None /\ truthy (inherited e) = true /\
   found_handlers this e = inherited e) \/
  (found_handlers this e = VArr [] /\
   forall l, handlers this !! e <> Some (VArr l)).
Proof.
  unfold found_handlers, member.
  destruct (handlers this !! e) as [v|] eqn:Hv.
  - destruct (truthy v) eqn:Ht; [left; eauto|].
    right. right. split; [reflexivity|]. intros l [= ->]. discriminate.
  - destruct (truthy (inherited e)) eqn:Ht; [right; left; auto|].
    right. right. split; [reflexivity|]. congruence.
Qed.

(** What a call does to the package, whatever its outcome. *)
Lemma run_call_effect (c : call) (this : Package) :
  effect this (run_call c this).2.
Proof.
  destruct c as [a b|a b|a b|f|ev f]; simpl.
  - destruct (processor a b this) as [[x|r] this'] eqn:H; simpl.
    + apply processor_err in H. subst. constructor.
    + apply processor_ok in H as (n & d & k & Hr & Hk & -> & _). by constructor.
  - destruct (factory a b this) as [[x|r] this'] eqn:H; simpl.
    + apply factory_err in H. subst. constructor.
    + apply factory_ok in H as (s & d & Hr & Hd & -> & _). constructor.
  - destruct (type a b this) as [[x|r] this'] eqn:H; simpl.
    + apply type_err in H. subst. constructor.
    + apply type_ok in H as (s & d & Hr & Hd & -> & _). constructor.
  - destruct (config f this) as [[x|r] this'] eqn:H; simpl.
    + apply config_err in H. subst. constructor.
    + apply config_ok in H as (Hf & -> & _). constructor.
  - destruct (String.eqb (typeof ev) "string") eqn:He;
      [|unfold eventHandler; rewrite He; constructor].
    destruct (String.eqb (typeof f) "function") eqn:Hf;
      [|unfold eventHandler; rewrite He, Hf; constructor].
    destruct (eventHandler_shape ev f He Hf) as (e & fn & src & ps & -> & ->).
    destruct (found_handlers this e) as [| | | | |l| |] eqn:Hfound.
    6:{ destruct (decide (fn = EmptyString -> (Z.of_nat (length l) < 10 ^ 21)%Z))
          as [Hlen|Hlen].
        - rewrite (eventHandler_run e fn src ps l this Hfound Hlen). simpl.
          apply effect_pushed; [apply handler_name_nonempty|exact Hfound].
        - rewrite eventHandler_eq, Hfound.
          assert (fn = EmptyString /\ ~ (Z.of_nat (length l) < 10 ^ 21)%Z) as [-> Hbig].
          { destruct (decide (fn = EmptyString)); [split; [done|]|]; tauto. }
          simpl. unfold decimal.
          destruct (_ <? _)%Z eqn:Hb; [apply Z.ltb_lt in Hb; lia|]. simpl.
          rewrite <- Hfound. eapply effect_found. rewrite Hfound. simpl.
          unfold decimal. rewrite Hb. reflexivity. }
    all: rewrite eventHandler_eq, Hfound;
      destruct (String.eqb fn EmptyString) eqn:Hfn;
      [destruct (to_string HintDefault (get_own _ "length")) as [x|made] eqn:Hx|];
      simpl; rewrite <- ?Hfound;
      try (eapply effect_found; rewrite Hfound; exact Hx);
      try (apply effect_registered;
           [first [by apply String.eqb_neq | destruct (name this); discriminate]
           |by rewrite Hfound]).
Qed.

Lemma constructor_core : constructor (VStr "core") VUndefined = inr core.
Proof. reflexivity. Qed.

Lemma found_handlers_fresh (this : Package) :
  handlers this !! EmptyString = None -> found_handlers this EmptyString = VArr [].
Proof. intros H. unfold found_handlers, member. rewrite H. reflexivity. Qed.

(** * The event handler guard *)

(** C1, as stated, fails: an empty event name passes the guard of
    [eventHandler], which only asks for a string; with a callable factory
    the call goes through. *)
Lemma eventHandler_empty_event_accepted :
  ~ (forall (ev f : jsval) (this : Package),
       ~ (exists s, ev = VStr s /\ s <> EmptyString) \/ typeof f <> "function" ->
       exists msg, eventHandler ev f this = (inl (Error msg), this)).
Proof.
  intros H.
  destruct (H (VStr EmptyString) anon core) as [msg Hmsg].
  - left. intros (s & [= <-] & Hs). congruence.
  - unfold anon in Hmsg.
    rewrite (eventHandler_run _ _ _ _ [] core) in Hmsg; [discriminate|reflexivity|].
    intros _. reflexivity.
Qed.

(** C1, amended: [eventHandler(eventName, handlerFactory)] throws an
    [Error] and leaves the package as it was when [eventName] is not a
    string or [handlerFactory] is not a function; the empty string is a
    string, and with it and a function the call succeeds on a package
    that has no handlers under it yet. *)
Theorem eventHandler_guard (ev f : jsval) (this : Package) :
  (typeof ev <> "string" \/ typeof f <> "function" ->
   exists msg, eventHandler ev f this = (inl (Error msg), this)) /\
  (typeof f = "function" -> handlers this !! EmptyString = None ->
   exists this', eventHandler (VStr EmptyString) f this = (inr this', this')).
Proof.
  split.
  - intros H. unfold eventHandler.
    destruct (String.eqb (typeof ev) "string") eqn:He; simpl.
    + destruct (String.eqb (typeof f) "function") eqn:Hf; simpl.
      * apply String.eqb_eq in He, Hf. tauto.
      * eexists. reflexivity.
    + eexists. reflexivity.
  - intros Hf%String.eqb_eq Hnone.
    apply typeof_function in Hf as (fn & src & ps & ->).
    eexists. apply (eventHandler_run _ _ _ _ []).
    + by apply found_handlers_fresh.
    + intros _. reflexivity.
Qed.

Lemma eventHandler_guard_witness :
  (exists msg, eventHandler (VNum 5) anon core = (inl (Error msg), core)) /\
  (exists this', eventHandler (VStr EmptyString) anon core = (inr this', this')).
Proof.
  split.
  - apply (proj1 (eventHandler_guard (VNum 5) anon core)). left. discriminate.
  - apply (proj2 (eventHandler_guard (VStr EmptyString) anon core)); reflexivity.
Defined.

(** * Failed calls *)





(** * Processors *)

(** C10: [processor(n)] with the definition left out succeeds for every
    string [n], the non-empty ones in particular: it assigns the value
    entry holding [undefined] to [module[n]], where it is read back,
    appends [n] to [processors], touches nothing else and returns the
    package.  The assignment makes an own member of [module], except
    under [__proto__], where the entry becomes the prototype. *)
Theorem processor_without_definition (n : string) (this : Package) :
  let this' :=
    set_processors (fun l => (l ++ [VStr n])%list)
      (assign_module n (IValue, VUndefined) this) in
  processor (VStr n) VUndefined this = (inr this', this') /\
  registered this' n = Some (IValue, VUndefined) /\
  (n <> "__proto__" ->
   module this' = <[n := (IValue, VUndefined)]> (module this) /\
   module_proto this' = module_proto this) /\
  processors this' = (processors this ++ [VStr n])%list /\
  name this' = name this /\ dependencies this' = dependencies this /\
  configFns this' = configFns this /\ handlers this' = handlers this.
Proof.
  destruct (assign_module_fields n (IValue, VUndefined) this)
    as (Hn & Hd & Hp & Hc & Hh).
  simpl. rewrite Hn, Hd, Hp, Hc, Hh. repeat split; auto.
  - apply (registered_assign n (IValue, VUndefined) this).
  - by rewrite assign_module_plain.
  - by rewrite assign_module_plain.
Qed.

(** C7: a successful [processor] call assigns one entry to [module] under
    the resolved name, where it is read back: a factory entry when the
    definition is a function and a value entry otherwise (an own member,
    except under [__proto__], where the entry becomes the prototype); and
    it appends the name to [processors] once.  A function named [foo]
    given alone is registered as a factory under [foo].  Two successful
    calls that resolve to one name leave that name twice in [processors]
    and, in the module, the second call's entry alone: the module is as
    the second call by itself would have left it. *)
Theorem processor_registers :
  (forall (a b : jsval) (this r this' : Package),
      processor a b this = (inr r, this') ->
      exists (n d : jsval) (k : InjectionType) (key : string),
        resolved a b n d /\
        (typeof d = "function" -> k = IFactory) /\
        (typeof d <> "function" -> k = IValue) /\
        to_string HintString n = inr key /\
        registered this' key = Some (k, d) /\
        (key <> "__proto__" ->
         module this' = <[key := (k, d)]> (module this) /\
         module_proto this' = module_proto this) /\
        processors this' = (processors this ++ [n])%list /\
        name this' = name this /\ dependencies this' = dependencies this /\
        configFns this' = configFns this /\ handlers this' = handlers this /\
        r = this') /\
  (exists this' : Package,
      processor foo VUndefined core = (inr this', this') /\
      module this' = {[ "foo" := (IFactory, foo) ]} /\
      processors this' = [VStr "foo"]) /\
  (forall (a1 b1 a2 b2 n d1 d2 : jsval) (this r1 this1 r2 this2 : Package),
      processor a1 b1 this = (inr r1, this1) ->
      processor a2 b2 this1 = (inr r2, this2) ->
      resolved a1 b1 n d1 ->
      resolved a2 b2 n d2 ->
      processors this2 = (processors this ++ [n; n])%list /\
      module this2 = module (processor a2 b2 this).2 /\
      module_proto this2 = module_proto (processor a2 b2 this).2 /\
      exists key : string,
        to_string HintString n = inr key /\
        registered this2 key = Some (processor_entry d2)).
Proof.
  split; [|split].
  - intros a b this r this' H.
    destruct (processor_ok _ _ _ _ _ H) as (n & d & key & Hr & Hkey & -> & ->).
    exists n, d, (processor_entry d).1, key.
    destruct (assign_module_fields key (processor_entry d) this)
      as (Hn & Hd & Hp & Hc & Hh).
    unfold processor_entry in *. simpl. rewrite Hn, Hd, Hp, Hc, Hh.
    repeat split; auto.
    + intros Hf%String.eqb_eq. rewrite Hf. reflexivity.
    + intros Hf%String.eqb_neq. rewrite Hf. reflexivity.
    + apply (registered_assign key _ this).
    + by rewrite assign_module_plain.
    + by rewrite assign_module_plain.
  - exists (set_processors (fun l => (l ++ [VStr "foo"])%list)
              (assign_module "foo" (IFactory, foo) core)).
    split; [reflexivity|]. split; [apply insert_empty|reflexivity].
  - intros a1 b1 a2 b2 n d1 d2 this r1 this1 r2 this2 H1 H2 Hr1 Hr2.
    destruct (processor_ok _ _ _ _ _ H1) as (n1 & d1' & k1 & Hr1' & Hk1 & -> & ->).
    destruct (processor_ok _ _ _ _ _ H2) as (n2 & d2' & k2 & Hr2' & Hk2 & -> & ->).
    destruct (resolved_fun _ _ _ _ _ _ Hr1 Hr1') as [<- <-].
    destruct (resolved_fun _ _ _ _ _ _ Hr2 Hr2') as [<- <-].
    assert (k2 = k1) as -> by congruence.
    rewrite (processor_run a2 b2 n d2 k1 this Hr2 Hk1).
    destruct (assign_module_fields k1 (processor_entry d1) this)
      as (_ & _ & Hp & _ & _).
    assert (forall (g : list jsval -> list jsval) (t : Package),
               assign_module k1 (processor_entry d2) (set_processors g t)
               = set_processors g (assign_module k1 (processor_entry d2) t)) as Hcomm.
    { intros g t. unfold assign_module. simpl.
      destruct (String.eqb k1 "__proto__"), (module t !! k1); reflexivity. }
    rewrite Hcomm, assign_module_twice. simpl.
    destruct (assign_module_fields k1 (processor_entry d2) this)
      as (_ & _ & Hp2 & _ & _).
    rewrite Hp2. repeat split.
    + rewrite <- app_assoc. reflexivity.
    + exists k1. split; [exact Hk1|].
      apply (registered_assign k1 (processor_entry d2) this).
Qed.

Lemma processor_registers_witness :
  exists (n d : jsval) (k : InjectionType),
    resolved (VObj [("name", VStr "bar")]) VUndefined n d /\
    k = IValue /\ n = VStr "bar".
Proof.
  destruct processor_registers as (Hgen & _ & _).
  destruct (Hgen (VObj [("name", VStr "bar")]) VUndefined core _ _ eq_refl)
    as (n & d & k & key & Hr & _ & Hk & _).
  exists n, d, k. split; [exact Hr|].
  destruct Hr as [(Ha & _)|(_ & -> & [= <-] & _)]; [discriminate|].
  split; [|reflexivity]. apply Hk. discriminate.
Defined.

(** * Event handlers *)

Lemma handler_name_anonymous (p e : string) (hs : list jsval) :
  handler_name p e EmptyString hs = p ++ "_" ++ e ++ "_" ++ pretty (length hs).
Proof. unfold handler_name. simpl. rewrite pretty_Z_of_nat. reflexivity. Qed.

Lemma handler_name_named (p e fn : string) (hs : list jsval) :
  fn <> EmptyString -> handler_name p e fn hs = fn.
Proof.
  intros H. unfold handler_name. apply String.eqb_neq in H. rewrite H. reflexivity.
Qed.

Lemma handlers_of_found (this : Package) (e : string) (l : list jsval) :
  found_handlers this e = VArr l -> handlers_of this e = l.
Proof. intros H. unfold handlers_of. rewrite H. reflexivity. Qed.

(** C3, at an event named like a member of [Object.prototype]: on the
    package [core], which has no handlers, [eventHandler('constructor', f)]
    with [f] anonymous finds the inherited [constructor] in place of a
    list, makes up the name [core_constructor_1], registers [f] under it
    and throws at the push; with [toString] the name is [core_toString_0],
    the call throws as well, and a second such call makes up the same name
    again. *)
Theorem inherited_event_name_numbering :
  handlers_of core "constructor" = [] /\
  (exists this' : Package,
      eventHandler (VStr "constructor") anon core = (inl TypeError, this') /\
      module this' = {[ "core_constructor_1" := (IFactory, anon) ]} /\
      handlers this' = {[ "constructor" := inherited "constructor" ]}) /\
  (exists this1 : Package,
      eventHandler (VStr "toString") anon core = (inl TypeError, this1) /\
      module this1 = {[ "core_toString_0" := (IFactory, anon) ]} /\
      eventHandler (VStr "toString") anon this1 = (inl TypeError, this1)).
Proof.
  split; [reflexivity|]. split.
  - exists (eventHandler (VStr "constructor") anon core).2.
    split; [reflexivity|]. split; vm_compute; reflexivity.
  - exists (eventHandler (VStr "toString") anon core).2.
    split; [reflexivity|]. split; vm_compute; reflexivity.
Qed.

(** C4: after a successful [eventHandler(e, f)], with [h] the name of [f]
    when it has one and the made-up name otherwise, the module is the one
    [factory(h, f)] leaves and reading [module[h]] gives [f] as a factory
    entry (an own member, except when [h] is [__proto__], where the entry
    is the prototype); [h] is the last element of [handlers[e]], after the
    handlers [e] had (none when [e] had no entry); nothing else changes
    and the package is returned.  On [core],
    [eventHandler('docsProcessed', myHandler)] gives a factory entry under
    [myHandler] and the handlers [[myHandler]]. *)
Theorem eventHandler_registers :
  (forall (ev f : jsval) (this r this' : Package),
      eventHandler ev f this = (inr r, this') ->
      exists (e fn src : string) (ps : list (string * jsval)) (h : string),
        let hs := handlers_of this e in
        ev = VStr e /\ f = VFun fn src ps /\
        (fn <> EmptyString -> h = fn) /\
        (fn = EmptyString -> h = name this ++ "_" ++ e ++ "_" ++ pretty (length hs)) /\
        module this' = module (factory (VStr h) f this).2 /\
        module_proto this' = module_proto (factory (VStr h) f this).2 /\
        registered this' h = Some (IFactory, f) /\
        (h <> "__proto__" -> module this' = <[h := (IFactory, f)]> (module this)) /\
        handlers this' = <[e := VArr (hs ++ [VStr h])%list]> (handlers this) /\
        (handlers this !! e = None -> handlers this' !! e = Some (VArr [VStr h])) /\
        name this' = name this /\ dependencies this' = dependencies this /\
        processors this' = processors this /\ configFns this' = configFns this /\
        r = this') /\
  (exists this' : Package,
      eventHandler (VStr "docsProcessed") myHandler core = (inr this', this') /\
      module this' !! "myHandler" = Some (IFactory, myHandler) /\
      handlers this' !! "docsProcessed" = Some (VArr [VStr "myHandler"])).
Proof.
  split.
  - intros ev f this r this' H.
    apply eventHandler_ok in H as (e & fn & src & ps & l & -> & -> & Hfound & Hlen & -> & ->).
    set (h := handler_name (name this) e fn l).
    exists e, fn, src, ps, h. cbv zeta.
    rewrite (handlers_of_found this e l Hfound).
    destruct (assign_module_fields h (IFactory, VFun fn src ps) this)
      as (Hn & Hd & Hp & Hc & Hh).
    assert (factory (VStr h) (VFun fn src ps) this
            = (inr (assign_module h (IFactory, VFun fn src ps) this),
               assign_module h (IFactory, VFun fn src ps) this)) as Hfac
      by reflexivity.
    rewrite Hfac. simpl. rewrite Hn, Hd, Hp, Hc, Hh.
    repeat split; auto.
    + intros Hfn. by apply handler_name_named.
    + intros ->. apply handler_name_anonymous.
    + apply (registered_assign h (IFactory, VFun fn src ps) this).
    + intros Hh'. by rewrite assign_module_plain.
    + intros Hnone. rewrite lookup_insert_eq.
      rewrite (found_handlers_new this e l Hnone Hfound). reflexivity.
  - exists (eventHandler (VStr "docsProcessed") myHandler core).2.
    repeat split; vm_compute; reflexivity.
Qed.

Lemma eventHandler_registers_witness :
  exists (e fn src : string) (ps : list (string * jsval)) (h : string),
    VStr "docsProcessed" = VStr e /\ myHandler = VFun fn src ps /\
    (fn <> EmptyString -> h = fn) /\
    module (eventHandler (VStr "docsProcessed") myHandler core).2 =
      <[h := (IFactory, myHandler)]> (module core).
Proof.
  destruct eventHandler_registers as [Hgen _].
  destruct (Hgen (VStr "docsProcessed") myHandler core _ _ eq_refl)
    as (e & fn & src & ps & h & He & Hf & Hn & _ & _ & _ & _ & Hm & _).
  exists e, fn, src, ps, h. repeat split; auto.
  apply Hm. injection Hf as <- _ _. rewrite Hn; discriminate.
Defined.

(** * Names in the module *)

Lemma resolved_key_nonempty (a b n d : jsval) (k : string) :
  resolved a b n d ->
  (if isString a then truthy a else isString (get_own a "name")) = true ->
  to_string HintString n = inr k ->
  k <> EmptyString.
Proof.
  intros [(Ha & -> & ->)|(Ha & -> & Hn & Ht)] Hw Hk; rewrite Ha in Hw.
  - apply isString_VStr in Ha as [s ->]. injection Hk as <-.
    apply truthy_VStr. exact Hw.
  - apply get_prop_own in Hn. subst n.
    apply isString_VStr in Hw as [s Hs]. rewrite Hs in *. injection Hk as <-.
    apply truthy_VStr. exact Ht.
Qed.

Lemma resolved_function_key_nonempty (a b d : jsval) (s : string) :
  resolved a b (VStr s) d ->
  (if isString a then truthy a else true) = true ->
  s <> EmptyString.
Proof.
  intros [(Ha & <- & ->)|(Ha & -> & Hn & Ht)] Hw.
  - simpl in Hw. by apply truthy_VStr.
  - by apply truthy_VStr.
Qed.

Lemma nonempty_keys_assign (this : Package) (k : string) (ent : InjectionType * jsval) :
  nonempty_keys this -> k <> EmptyString ->
  forall k', is_Some (module (assign_module k ent this) !! k') -> k' <> EmptyString.
Proof.
  intros Hinv Hk k' Hk'. apply assign_module_keys in Hk' as [->|Hk']; auto.
Qed.

Lemma well_named_step (c : call) (this r this' : Package) :
  nonempty_keys this -> well_named c = true ->
  run_call c this = (inr r, this') -> nonempty_keys this'.
Proof.
  intros Hinv Hw H. destruct c; simpl in H, Hw.
  - apply processor_ok in H as (n & d & k & Hr & Hk & -> & _).
    unfold nonempty_keys; simpl; apply nonempty_keys_assign;
      eauto using resolved_key_nonempty.
  - apply factory_ok in H as (s & d & Hr & Hd & -> & _).
    unfold nonempty_keys; simpl; apply nonempty_keys_assign;
      eauto using resolved_function_key_nonempty.
  - apply type_ok in H as (s & d & Hr & Hd & -> & _).
    unfold nonempty_keys; simpl; apply nonempty_keys_assign;
      eauto using resolved_function_key_nonempty.
  - apply config_ok in H as (_ & -> & _). exact Hinv.
  - apply eventHandler_ok in H as (e & fn & src & ps & l & -> & -> & _ & _ & -> & _).
    unfold nonempty_keys; simpl; apply nonempty_keys_assign; [exact Hinv|].
    apply handler_name_nonempty.
Qed.

Lemma constructor_module (n d : jsval) (this : Package) :
  constructor n d = inr this ->
  module this = ∅ /\ handlers this = ∅ /\ processors this = [] /\ configFns this = [] /\
  module_proto this = None.
Proof.
  unfold constructor.
  destruct (negb _); [discriminate|]. destruct (_ && _); [discriminate|].
  intros [= <-]. auto.
Qed.

(** C2, as stated, fails: [factory] takes an explicit empty name as it
    is, and the package a constructor made then has the empty string among
    the keys of its module. *)
Lemma factory_empty_name_written :
  ~ (forall (n d : jsval) (this0 : Package) (cs : list call) (this : Package),
       constructor n d = inr this0 ->
       run_calls cs this0 = Some this ->
       forall k : string, is_Some (module this !! k) -> k <> EmptyString).
Proof.
  intros H.
  apply (H (VStr "core") VUndefined core [CallFactory (VStr EmptyString) anon]
           (factory (VStr EmptyString) anon core).2 eq_refl eq_refl EmptyString);
    [|reflexivity].
  vm_compute. eauto.
Qed.

(** C2, amended: in a package reached from a constructed one by successful
    calls in which no name argument is the empty string and every
    processor definition given alone has a string for its name, every key
    of the module is a non-empty string. *)
Theorem module_keys_nonempty
    (n d : jsval) (this0 : Package) (cs : list call) (this : Package) :
  constructor n d = inr this0 ->
  forallb well_named cs = true ->
  run_calls cs this0 = Some this ->
  forall k : string, is_Some (module this !! k) -> k <> EmptyString.
Proof.
  intros Hnew Hcs Hrun.
  assert (nonempty_keys this0) as Hinv.
  { apply constructor_module in Hnew as (Hm & _). intros k Hk.
    rewrite Hm, lookup_empty in Hk. destruct Hk as [? [=]]. }
  clear Hnew. revert this0 Hinv Hcs Hrun.
  induction cs as [|c rest IH]; intros this0 Hinv Hcs Hrun; simpl in *.
  - injection Hrun as <-. exact Hinv.
  - apply andb_true_iff in Hcs as [Hc Hrest].
    destruct (run_call c this0) as [[x|r] this1] eqn:Hstep; [discriminate|].
    apply (IH this1); [|exact Hrest|exact Hrun].
    exact (well_named_step c this0 r this1 Hinv Hc Hstep).
Qed.

Lemma module_keys_nonempty_witness :
  run_calls [CallProcessor foo VUndefined; CallFactory (VStr "x") anon;
             CallEventHandler (VStr "docsProcessed") anon] core
    = Some ((processor foo VUndefined ;; factory (VStr "x") anon ;;
             eventHandler (VStr "docsProcessed") anon) core).2 /\
  "core_docsProcessed_0" <> EmptyString.
Proof.
  split; [reflexivity|].
  apply (module_keys_nonempty (VStr "core") VUndefined core
           [CallProcessor foo VUndefined; CallFactory (VStr "x") anon;
            CallEventHandler (VStr "docsProcessed") anon]
           ((processor foo VUndefined ;; factory (VStr "x") anon ;;
             eventHandler (VStr "docsProcessed") anon) core).2
           eq_refl eq_refl eq_refl "core_docsProcessed_0").
  vm_compute. eauto.
Defined.

(** * Overwriting *)

(** What a successful registration assigns, and that it succeeds on every
    package alike. *)
Lemma registration_writes (c : call) (this0 r0 this0' : Package) :
  is_registration c = true ->
  run_call c this0 = (inr r0, this0') ->
  exists (k : string) (ent : InjectionType * jsval),
    forall this : Package,
      exists this' : Package,
        run_call c this = (inr this', this') /\
        module this' = module (assign_module k ent this) /\
        module_proto this' = module_proto (assign_module k ent this).
Proof.
  intros Hc H. destruct c; try discriminate; simpl in *.
  - apply processor_ok in H as (n & d & k & Hr & Hk & -> & _).
    exists k, (processor_entry d).
    intros this. eexists. split; [apply (processor_run _ _ _ _ _ this Hr Hk)|].
    split; reflexivity.
  - apply factory_ok in H as (s & d & Hr & Hd & -> & _).
    exists s, (IFactory, d).
    intros this. eexists. split; [apply (factory_run _ _ _ _ this Hr Hd)|].
    split; reflexivity.
  - apply type_ok in H as (s & d & Hr & Hd & -> & _).
    exists s, (IType, d).
    intros this. eexists. split; [apply (type_run _ _ _ _ this Hr Hd)|].
    split; reflexivity.
Qed.

(** An assignment that leaves an empty module with one own member was
    made under that member's name, which is not [__proto__]. *)
Lemma assign_module_empty_inv
    (k n : string) (ent e : InjectionType * jsval) (fresh : Package) :
  module fresh = ∅ ->
  module (assign_module k ent fresh) = {[n := e]} ->
  k = n /\ ent = e /\ forall this, assign_module k ent this = set_module <[n := e]> this.
Proof.
  intros Hfresh. unfold assign_module. rewrite Hfresh, lookup_empty.
  destruct (String.eqb k "__proto__") eqn:Hk; simpl; rewrite Hfresh.
  - intros H. assert (({[n := e]} : gmap string (InjectionType * jsval)) !! n = None)
      as Hn by (by rewrite <- H).
    rewrite lookup_singleton_eq in Hn. discriminate.
  - intros H.
    assert (({[n := e]} : gmap string (InjectionType * jsval)) !! k = Some ent) as Hn.
    { rewrite <- H. apply lookup_insert_eq. }
    apply lookup_singleton_Some in Hn as [-> ->]. repeat split.
Qed.



Lemma factory_over_factory_example :
  exists this1 this2 : Package,
    run_call (CallFactory (VStr "x") foo) core = (inr this1, this1) /\
    run_call (CallFactory (VStr "x") myHandler) this1 = (inr this2, this2) /\
    module this2 !! "x" = Some (IFactory, myHandler) /\
    size (module this2) = 1.
Proof.
  exists (factory (VStr "x") foo core).2.
  exists ((factory (VStr "x") foo ;; factory (VStr "x") myHandler) core).2.
  repeat split; vm_compute; reflexivity.
Qed.

(** * Construction *)

(** C8, as stated, fails in its last part: [null] is given for
    [dependencies], is not an array, and the constructor accepts it. *)
Lemma constructor_null_dependencies_accepted :
  ~ (forall n d : jsval,
       typeof n = "string" -> d <> VUndefined -> isArray d = false ->
       exists msg, constructor n d = inl (Error msg)).
Proof.
  intros H.
  destruct (H (VStr "p") VNull) as [msg Hmsg]; try discriminate; reflexivity.
Qed.

(** C8, amended: with a string name and an array of dependencies the
    constructor gives a package with that name, those dependencies as they
    are, and empty module, processors, config functions and handlers; a
    name that is not a string is refused with the missing-name error;
    dependencies that are truthy and not an array are refused with the
    must-be-an-array error; dependencies that are given, falsy and not an
    array ([null], [false], [0], the empty string) are stored as they are;
    left out, they are the empty array. *)
Theorem constructor_contract :
  (forall (s : string) (l : list jsval),
      constructor (VStr s) (VArr l) = inr (mkPackage s (VArr l) [] [] ∅ ∅)) /\
  (forall n d : jsval,
      typeof n <> "string" ->
      constructor n d = inl (Error "You must provide a name for the package")) /\
  (forall (s : string) (d : jsval),
      truthy d = true -> isArray d = false ->
      constructor (VStr s) d = inl (Error "dependencies must be an array")) /\
  (forall (s : string) (d : jsval),
      d <> VUndefined -> truthy d = false ->
      constructor (VStr s) d = inr (mkPackage s d [] [] ∅ ∅)) /\
  (forall s : string,
      constructor (VStr s) VUndefined = inr (mkPackage s (VArr []) [] [] ∅ ∅)).
Proof.
  split; [|split; [|split; [|split]]].
  - reflexivity.
  - intros n d Hn%String.eqb_neq. unfold constructor. rewrite Hn. reflexivity.
  - intros s d Ht Ha. unfold constructor. simpl.
    destruct d; try discriminate; simpl in *; rewrite ?Ht; reflexivity.
  - intros s d Hd Ht. unfold constructor. simpl.
    destruct d; try discriminate; try contradiction; simpl in *; rewrite ?Ht; reflexivity.
  - reflexivity.
Qed.

Lemma constructor_contract_witness :
  constructor (VNum 123) VUndefined = inl (Error "You must provide a name for the package") /\
  constructor (VStr "p") (VStr "q") = inl (Error "dependencies must be an array") /\
  constructor (VStr "p") VNull = inr (mkPackage "p" VNull [] [] ∅ ∅).
Proof.
  destruct constructor_contract as (_ & Hname & Hdeps & Hfalsy & _).
  split; [|split].
  - apply Hname. discriminate.
  - apply Hdeps; reflexivity.
  - apply Hfalsy; [discriminate|reflexivity].
Defined.

(** * The package check *)

Lemma isArray_VArr (v : jsval) : isArray v = true <-> exists l, v = VArr l.
Proof.
  split.
  - destruct v; simpl; try discriminate. eauto.
  - intros [l ->]. reflexivity.
Qed.

Lemma isObject_object_or_callable (v : jsval) :
  isObject v = true <-> object_or_callable v.
Proof.
  destruct v; unfold isObject; simpl; rewrite ?andb_false_r;
    split; intros H; try discriminate; try contradiction; auto.
Qed.

Lemma isPackage_defined (v : jsval) :
  v <> VNull -> v <> VUndefined ->
  isPackage v =
    inr (isString (get_own v "name") && isArray (get_own v "dependencies")
         && isObject (get_own v "module")).
Proof.
  intros Hnull Hundef. unfold isPackage, get_prop.
  destruct v; try contradiction;
    destruct (isString _); simpl; try reflexivity;
    destruct (isArray _); reflexivity.
Qed.

(** C9, as stated, fails: on [null] the check does not return, the read
    of [pkg.name] throws. *)
Lemma isPackage_null_throws :
  ~ (forall v : jsval, exists b : bool, isPackage v = inr b).
Proof. intros H. destruct (H VNull) as [b Hb]. discriminate. Qed.

(** C9, amended: on every value other than [null] and [undefined],
    primitives included, [isPackage] returns a boolean and does not throw;
    it returns [true] exactly when the value has a string under [name], an
    array under [dependencies] and an object or a function under
    [module]. *)
Theorem isPackage_shape (v : jsval) :
  v <> VNull -> v <> VUndefined ->
  exists b : bool,
    isPackage v = inr b /\
    (b = true <->
       (exists s, get_own v "name" = VStr s) /\
       (exists l, get_own v "dependencies" = VArr l) /\
       object_or_callable (get_own v "module")).
Proof.
  intros Hnull Hundef. eexists. split; [apply isPackage_defined; assumption|].
  rewrite !andb_true_iff, isString_VStr, isArray_VArr, isObject_object_or_callable.
  tauto.
Qed.

Lemma isPackage_shape_witness :
  exists b : bool,
    isPackage (VObj [("name", VStr "p"); ("dependencies", VArr []);
                     ("module", VObj [])]) = inr b /\
    (b = true <->
       (exists s, VStr "p" = VStr s) /\ (exists l, VArr [] = VArr l) /\ True).
Proof.
  apply (isPackage_shape (VObj [("name", VStr "p"); ("dependencies", VArr []);
                                ("module", VObj [])])); discriminate.
Defined.

(** * Further properties of the methods *)

Lemma found_handlers_lookup (this that : Package) (e : string) :
  handlers that !! e = handlers this !! e ->
  found_handlers that e = found_handlers this e.
Proof. intros H. unfold found_handlers, member. rewrite H. reflexivity. Qed.

Lemma found_handlers_truthy (this : Package) (e : string) :
  truthy (found_handlers this e) = true.
Proof.
  unfold found_handlers. destruct (truthy (member (handlers this) e)) eqn:H; auto.
Qed.

(** Storing what was found changes nothing that a read finds. *)
Lemma found_handlers_stored (this that : Package) (e e' : string) :
  handlers that = assign_handlers e (found_handlers this e) (handlers this) ->
  found_handlers that e' = found_handlers this e'.
Proof.
  intros H. unfold assign_handlers in H.
  destruct (String.eqb e "__proto__") eqn:He, (handlers this !! e) eqn:Hown;
    try (apply found_handlers_lookup; by rewrite H).
  all: destruct (decide (e' = e)) as [->|Hne];
    [|apply found_handlers_lookup; rewrite H; by apply lookup_insert_ne].
  all: pose proof (found_handlers_truthy this e) as Ht.
  all: unfold found_handlers at 1; unfold member; rewrite H, lookup_insert_eq;
    simpl; rewrite Ht; reflexivity.
Qed.

Lemma found_handlers_pushed (this that : Package) (e e' : string) (v : jsval) :
  handlers that = <[e := v]> (handlers this) -> e' <> e ->
  found_handlers that e' = found_handlers this e'.
Proof.
  intros H Hne. apply found_handlers_lookup. rewrite H. by apply lookup_insert_ne.
Qed.

Lemma found_handlers_inserted (that : Package) (e : string) (l : list jsval)
    (m : gmap string jsval) :
  handlers that = <[e := VArr l]> m -> found_handlers that e = VArr l.
Proof.
  intros H. unfold found_handlers, member. rewrite H, lookup_insert_eq. reflexivity.
Qed.

Lemma handlers_set_handlers
    (g : gmap string jsval -> gmap string jsval) (this : Package) :
  handlers (set_handlers g this) = g (handlers this).
Proof. reflexivity. Qed.

Lemma effect_only_adds (this this' : Package) :
  effect this this' ->
  name this' = name this /\
  dependencies this' = dependencies this /\
  processors this `prefix_of` processors this' /\
  configFns this `prefix_of` configFns this' /\
  (forall e : string, handlers_of this e `prefix_of` handlers_of this' e) /\
  (forall k : string, is_Some (module this !! k) -> is_Some (module this' !! k)).
Proof.
  intros [ |n d k Hk|k ent|f|e x Hx|e h f Hh Hf|e h f l Hh Hf].
  - repeat split; auto.
  - destruct (assign_module_fields k (processor_entry d) this) as (Hn & Hd & Hp & Hc & Hhs).
    simpl. rewrite Hn, Hd, Hp, Hc. repeat split; auto.
    + by apply prefix_app_r.
    + intros e. unfold handlers_of.
      rewrite (found_handlers_lookup this (set_processors _ (assign_module k _ this)) e);
        [done|]. simpl. by rewrite Hhs.
    + intros k'. apply assign_module_keeps.
  - destruct (assign_module_fields k ent this) as (Hn & Hd & Hp & Hc & Hhs).
    rewrite Hn, Hd, Hp, Hc. repeat split; auto.
    + intros e. unfold handlers_of.
      rewrite (found_handlers_lookup this (assign_module k ent this) e); [done|].
      by rewrite Hhs.
    + intros k'. apply assign_module_keeps.
  - simpl. repeat split; auto. by apply prefix_app_r.
  - simpl. repeat split; auto. intros e'. unfold handlers_of.
    by rewrite (found_handlers_stored this
                  (set_handlers (assign_handlers e (found_handlers this e)) this)
                  e e' eq_refl).
  - destruct (assign_module_fields h (IFactory, f)
                (set_handlers (assign_handlers e (found_handlers this e)) this))
      as (Hn & Hd & Hp & Hc & Hhs).
    rewrite Hn, Hd, Hp, Hc. simpl. repeat split; auto.
    + intros e'. unfold handlers_of.
      by rewrite (found_handlers_stored this _ e e' Hhs).
    + intros k' Hk'. by apply assign_module_keeps.
  - destruct (assign_module_fields h (IFactory, f) this) as (Hn & Hd & Hp & Hc & Hhs).
    split; [exact Hn|]. split; [exact Hd|].
    split; [change (processors this `prefix_of`
                      processors (assign_module h (IFactory, f) this));
            by rewrite Hp|].
    split; [change (configFns this `prefix_of`
                      configFns (assign_module h (IFactory, f) this));
            by rewrite Hc|].
    split.
    + intros e'. unfold handlers_of. destruct (decide (e' = e)) as [->|Hne].
      * rewrite (found_handlers_inserted
                   (set_handlers <[e := VArr (l ++ [VStr h])%list]>
                      (assign_module h (IFactory, f) this))
                   e (l ++ [VStr h]) (handlers this));
          [|by rewrite handlers_set_handlers, Hhs].
        rewrite Hf. by apply prefix_app_r.
      * rewrite (found_handlers_pushed this
                   (set_handlers <[e := VArr (l ++ [VStr h])%list]>
                      (assign_module h (IFactory, f) this))
                   e e' (VArr (l ++ [VStr h])));
          [done|by rewrite handlers_set_handlers, Hhs|done].
    + intros k' Hk'.
      change (is_Some (module (assign_module h (IFactory, f) this) !! k')).
      by apply assign_module_keeps.
Qed.

Lemma run_all_dependencies (cs : list call) (this : Package) :
  dependencies (run_all cs this) = dependencies this.
Proof.
  revert this. induction cs as [|c rest IH]; intros this; simpl; [reflexivity|].
  rewrite IH. apply effect_only_adds, run_call_effect.
Qed.

(** Whatever calls are made, and whichever of them throw, nothing is taken
    away: the name and the dependencies stay, [processors], [configFns]
    and the handlers of every event keep what they had in front, and every
    key of [module] remains a key. *)
Theorem calls_only_add (cs : list call) (this : Package) :
  name (run_all cs this) = name this /\
  dependencies (run_all cs this) = dependencies this /\
  processors this `prefix_of` processors (run_all cs this) /\
  configFns this `prefix_of` configFns (run_all cs this) /\
  (forall e : string,
      handlers_of this e `prefix_of` handlers_of (run_all cs this) e) /\
  (forall k : string,
      is_Some (module this !! k) -> is_Some (module (run_all cs this) !! k)).
Proof.
  revert this. induction cs as [|c rest IH]; intros this; simpl.
  - repeat split; auto.
  - destruct (IH (run_call c this).2) as (Hn & Hd & Hp & Hc & Hh & Hm).
    destruct (effect_only_adds this _ (run_call_effect c this))
      as (Hn1 & Hd1 & Hp1 & Hc1 & Hh1 & Hm1).
    rewrite Hn, Hd. repeat split; auto.
    + etrans; [exact Hp1|exact Hp].
    + etrans; [exact Hc1|exact Hc].
    + intros e. etrans; [apply Hh1|apply Hh].
Qed.

Lemma registered_frame (this that : Package) (k : string) :
  module that = module this -> module_proto that = module_proto this ->
  registered that k = registered this k.
Proof. intros Hm Hp. unfold registered. rewrite Hm, Hp. reflexivity. Qed.

Lemma member_listed_mono (this that : Package) (e : string) (v : jsval) :
  (forall k, is_Some (registered this k) -> is_Some (registered that k)) ->
  member_listed this e v -> member_listed that e v.
Proof.
  intros Hmono [(hs & -> & Hne & Hall)|Hinh]; [left|right; exact Hinh].
  exists hs. repeat split; auto.
  intros h Hin. destruct (Hall h Hin) as (s & -> & Hs & Hk). eauto.
Qed.

(** What the store of the value found under [e] leaves under [e']. *)
Lemma stored_member_listed (this that : Package) (e e' : string) (v : jsval) :
  (forall e0 v0, handlers this !! e0 = Some v0 -> member_listed this e0 v0) ->
  found_handlers this e <> VArr [] ->
  assign_handlers e (found_handlers this e) (handlers this) !! e' = Some v ->
  member_listed this e' v.
Proof.
  intros Hinv Hnew. unfold assign_handlers.
  destruct (String.eqb e "__proto__") eqn:He, (handlers this !! e) eqn:Hown;
    try (by apply Hinv).
  all: destruct (decide (e = e')) as [<-|Hne];
    [rewrite lookup_insert_eq; intros [= <-]
    |rewrite lookup_insert_ne by done; by apply Hinv].
  all: destruct (found_handlers_cases this e)
    as [(v0 & Hv0 & _ & ->)|[(_ & _ & ->)|[Hnil _]]]; try contradiction.
  all: try (apply (Hinv e); congruence).
  all: right; split; [reflexivity|apply inherited_not_array].
Qed.

Lemma listed_names_registered_effect (this this' : Package) :
  effect this this' ->
  listed_names_registered this -> listed_names_registered this'.
Proof.
  intros Heff [Hp Hh].
  assert (forall e0 v0, handlers this !! e0 = Some v0 -> member_listed this e0 v0)
    as Hh' by exact Hh.
  destruct Heff as [ |n d k Hk|k ent|f|e x Hx|e h f Hhne Hf|e h f l Hhne Hf].
  - split; assumption.
  - destruct (assign_module_fields k (processor_entry d) this) as (_ & _ & Hps & _ & Hhs).
    assert (forall k', is_Some (registered this k') ->
                       is_Some (registered
                                  (set_processors (fun l => (l ++ [n])%list)
                                     (assign_module k (processor_entry d) this)) k'))
      as Hmono.
    { intros k' Hk'.
      rewrite (registered_frame (assign_module k (processor_entry d) this)) by done.
      by apply registered_assign_keeps. }
    split.
    + intros m Hm.
      change (m ∈ (processors (assign_module k (processor_entry d) this) ++ [n])%list)
        in Hm.
      rewrite Hps in Hm. apply elem_of_app in Hm as [Hm|Hm%list_elem_of_singleton].
      * destruct (Hp m Hm) as (k' & Hk' & Hreg). eauto.
      * subst m. exists k. split; [exact Hk|].
        rewrite (registered_frame (assign_module k (processor_entry d) this)) by done.
        rewrite registered_assign. eauto.
    + intros e v Hv.
      change (handlers (assign_module k (processor_entry d) this) !! e = Some v) in Hv.
      rewrite Hhs in Hv. apply (member_listed_mono this); auto.
  - destruct (assign_module_fields k ent this) as (_ & _ & Hps & _ & Hhs).
    assert (forall k', is_Some (registered this k') ->
                       is_Some (registered (assign_module k ent this) k')) as Hmono
      by (intros k'; apply registered_assign_keeps).
    split.
    + intros m Hm. rewrite Hps in Hm. destruct (Hp m Hm) as (k' & Hk' & Hreg). eauto.
    + intros e v Hv. rewrite Hhs in Hv. apply (member_listed_mono this); auto.
  - split; assumption.
  - split; [exact Hp|].
    intros e' v Hv.
    apply (member_listed_mono this); [auto|].
    apply (stored_member_listed this this e e' v Hh'); [|exact Hv].
    intros Hnil. rewrite Hnil in Hx. discriminate.
  - destruct (assign_module_fields h (IFactory, f)
                (set_handlers (assign_handlers e (found_handlers this e)) this))
      as (_ & _ & Hps & _ & Hhs).
    assert (forall k', is_Some (registered this k') ->
                       is_Some (registered
                                  (assign_module h (IFactory, f)
                                     (set_handlers
                                        (assign_handlers e (found_handlers this e)) this))
                                  k')) as Hmono.
    { intros k' Hk'. apply registered_assign_keeps.
      by rewrite (registered_frame this). }
    split.
    + intros m Hm. rewrite Hps in Hm. destruct (Hp m Hm) as (k' & Hk' & Hreg). eauto.
    + intros e' v Hv. rewrite Hhs in Hv.
      apply (member_listed_mono this); [exact Hmono|].
      apply (stored_member_listed this this e e' v Hh'); [|exact Hv].
      intros Hnil. rewrite Hnil in Hf. discriminate.
  - destruct (assign_module_fields h (IFactory, f) this) as (_ & _ & Hps & _ & Hhs).
    assert (forall k', is_Some (registered this k') ->
                       is_Some (registered
                                  (set_handlers <[e := VArr (l ++ [VStr h])%list]>
                                     (assign_module h (IFactory, f) this)) k'))
      as Hmono.
    { intros k' Hk'.
      rewrite (registered_frame (assign_module h (IFactory, f) this)) by done.
      by apply registered_assign_keeps. }
    split.
    + intros m Hm.
      change (m ∈ processors (assign_module h (IFactory, f) this)) in Hm.
      rewrite Hps in Hm. destruct (Hp m Hm) as (k' & Hk' & Hreg). eauto.
    + intros e' v Hv. rewrite handlers_set_handlers, Hhs in Hv.
      destruct (decide (e = e')) as [<-|Hne].
      * rewrite lookup_insert_eq in Hv. injection Hv as <-. left.
        exists (l ++ [VStr h])%list. split; [reflexivity|]. split; [by destruct l|].
        intros x [Hx|Hx%list_elem_of_singleton]%elem_of_app.
        -- assert (member_listed this e (VArr l)) as Hold.
           { destruct (found_handlers_cases this e)
               as [(v0 & Hv0 & _ & Hfv)|[(_ & _ & Hfv)|[Hnil _]]].
             - apply Hh'. congruence.
             - pose proof (inherited_not_array e) as Hna.
               rewrite <- Hfv, Hf in Hna. discriminate.
             - rewrite Hnil in Hf. injection Hf as <-.
               by apply elem_of_nil in Hx. }
           destruct Hold as [(hs & [= <-] & _ & Hall)|[_ [=]]].
           destruct (Hall x Hx) as (s & -> & Hs & Hk). eauto 6.
        -- subst x. exists h. repeat split; auto.
           rewrite (registered_frame (assign_module h (IFactory, f) this)) by done.
           rewrite registered_assign. eauto.
      * rewrite lookup_insert_ne in Hv by done.
        apply (member_listed_mono this); auto.
Qed.

(** In a package the constructor made, after any run of calls, whichever
    of them throw: every name in [processors] names an entry of [module];
    every own member of [handlers] is a list with at least one element,
    all non-empty strings that name entries of [module], or else the
    member of [Object.prototype] of the same name, which a call that threw
    has left there. *)
Theorem constructed_names_registered
    (n d : jsval) (this0 : Package) (cs : list call) :
  constructor n d = inr this0 ->
  listed_names_registered (run_all cs this0).
Proof.
  intros Hnew.
  assert (listed_names_registered this0) as Hinv.
  { apply constructor_module in Hnew as (_ & Hh & Hp & _). split.
    - intros m Hm. rewrite Hp in Hm. by apply elem_of_nil in Hm.
    - intros e hs Hhs. rewrite Hh, lookup_empty in Hhs. discriminate. }
  clear Hnew. revert this0 Hinv.
  induction cs as [|c rest IH]; intros this0 Hinv; simpl; [exact Hinv|].
  apply IH. apply (listed_names_registered_effect this0); [|exact Hinv].
  apply run_call_effect.
Qed.

Lemma constructed_names_registered_witness :
  listed_names_registered
    (run_all [CallEventHandler (VStr "docsProcessed") anon;
              CallEventHandler (VStr "toString") anon;
              CallProcessor (VStr "__proto__") VUndefined;
              CallProcessor foo VUndefined; CallFactory (VNum 1) VUndefined] core).
Proof.
  apply (constructed_names_registered (VStr "core") VUndefined core). reflexivity.
Defined.

(** * Constructed packages and the package check *)

Lemma isPackage_as_value (this : Package) :
  isPackage (as_value this) = inr (isArray (dependencies this)).
Proof.
  unfold isPackage, as_value, get_prop, get_own, assoc. simpl.
  destruct (isArray (dependencies this)); reflexivity.
Qed.

(** A package the constructor made is recognised by [isPackage], before
    and after any run of calls, exactly when its dependencies are an
    array: so it is when an array was given or the argument left out, and
    it is not when a falsy value such as [null] was given. *)
Theorem constructed_isPackage
    (n d : jsval) (this0 : Package) (cs : list call) :
  constructor n d = inr this0 ->
  isPackage (as_value (run_all cs this0)) =
    inr (match d with VUndefined | VArr _ => true | _ => false end).
Proof.
  intros Hnew. rewrite isPackage_as_value.
  rewrite run_all_dependencies.
  unfold constructor in Hnew.
  destruct (negb _); [discriminate|]. destruct (_ && _); [discriminate|].
  injection Hnew as <-. simpl. destruct d; reflexivity.
Qed.

Lemma constructed_isPackage_witness :
  isPackage (as_value (run_all [CallProcessor foo VUndefined] core)) = inr true /\
  isPackage (as_value (mkPackage "p" VNull [] [] ∅ ∅)) = inr false.
Proof.
  split.
  - apply (constructed_isPackage (VStr "core") VUndefined core
             [CallProcessor foo VUndefined]). reflexivity.
  - apply (constructed_isPackage (VStr "p") VNull _ []). reflexivity.
Defined.

(** * Registration order *)

Lemma set_configFns_nil (this : Package) :
  set_configFns (fun l => (l ++ [])%list) this = this.
Proof. destruct this. unfold set_configFns. simpl. by rewrite app_nil_r. Qed.

Lemma set_configFns_cons (f : jsval) (fs : list jsval) (this : Package) :
  set_configFns (fun l => (l ++ fs)%list) (set_configFns (fun l => (l ++ [f])%list) this)
  = set_configFns (fun l => (l ++ f :: fs)%list) this.
Proof. unfold set_configFns. simpl. by rewrite <- app_assoc. Qed.

(** A chain of [config] calls goes through exactly when every argument is
    a function, and then [configFns] has the functions appended in the
    order of the calls and no other field has changed; with an argument
    that is not a function the chain throws. *)
Theorem config_chain (fs : list jsval) (this : Package) :
  (Forall (fun f => typeof f = "function") fs ->
   run_calls (map CallConfig fs) this
     = Some (set_configFns (fun l => (l ++ fs)%list) this)) /\
  (~ Forall (fun f => typeof f = "function") fs ->
   run_calls (map CallConfig fs) this = None).
Proof.
  revert this. induction fs as [|f fs IH]; intros this; simpl.
  - split; [intros _; by rewrite set_configFns_nil|].
    intros H. destruct H. constructor.
  - unfold config. run_method.
    destruct (String.eqb (typeof f) "function") eqn:Hf; simpl.
    + apply String.eqb_eq in Hf. destruct (IH (set_configFns (fun l => (l ++ [f])%list) this))
        as [Hall Hnot].
      split.
      * intros Hfs. apply Forall_cons in Hfs as [_ Hfs].
        rewrite (Hall Hfs), set_configFns_cons. reflexivity.
      * intros Hfs. apply Hnot. intros Hfs'. apply Hfs. by constructor.
    + apply String.eqb_neq in Hf. split; [|reflexivity].
      intros Hfs. apply Forall_cons in Hfs as [Hf' _]. contradiction.
Qed.

Lemma config_chain_witness :
  run_calls (map CallConfig [foo; anon]) core
    = Some (set_configFns (fun l => (l ++ [foo; anon])%list) core) /\
  run_calls (map CallConfig [foo; VNum 3; anon]) core = None.
Proof.
  split.
  - apply (proj1 (config_chain [foo; anon] core)). repeat constructor.
  - apply (proj2 (config_chain [foo; VNum 3; anon] core)).
    intros H. apply Forall_cons in H as [_ H]. apply Forall_cons in H as [H _].
    discriminate.
Defined.

Lemma processor_string_run (n : string) (d : jsval) (this : Package) :
  processor (VStr n) d this
  = (inr (set_processors (fun l => (l ++ [VStr n])%list)
            (assign_module n (processor_entry d) this)),
     set_processors (fun l => (l ++ [VStr n])%list)
       (assign_module n (processor_entry d) this)).
Proof. apply (processor_run (VStr n) d (VStr n) d n this); [left; auto|reflexivity]. Qed.

Lemma processor_chain_keeps (nds : list (string * jsval)) (t t' : Package) :
  run_calls (map (fun nd => CallProcessor (VStr nd.1) nd.2) nds) t = Some t' ->
  forall k, is_Some (registered t k) -> is_Some (registered t' k).
Proof.
  revert t. induction nds as [|[n' d'] nds IHn]; intros t Hrun k Hk; simpl in Hrun.
  - by injection Hrun as <-.
  - rewrite processor_string_run in Hrun.
    apply (IHn _ Hrun).
    rewrite (registered_frame (assign_module n' (processor_entry d') t)) by done.
    by apply registered_assign_keeps.
Qed.

(** A chain of [processor] calls that name their processors by a string
    never throws, whatever the definitions are: [processors] gets the
    names appended in the order of the calls, duplicates included, every
    name then names an entry of [module], and name, dependencies,
    [configFns] and [handlers] stay.  With no name [__proto__] among them,
    [module] gets the entries written one after the other as own members
    and keeps its prototype. *)
Theorem processor_chain (nds : list (string * jsval)) (this : Package) :
  exists this' : Package,
    run_calls (map (fun nd => CallProcessor (VStr nd.1) nd.2) nds) this = Some this' /\
    processors this' = (processors this ++ map (fun nd => VStr nd.1) nds)%list /\
    name this' = name this /\ dependencies this' = dependencies this /\
    configFns this' = configFns this /\ handlers this' = handlers this /\
    (forall nd, nd ∈ nds -> is_Some (registered this' nd.1)) /\
    (Forall (fun nd => nd.1 <> "__proto__") nds ->
     module this' = foldl (fun m nd => <[nd.1 := processor_entry nd.2]> m) (module this) nds /\
     module_proto this' = module_proto this).
Proof.
  revert this. induction nds as [|[n d] nds IH]; intros this; simpl.
  - exists this. rewrite app_nil_r. repeat split; auto.
    intros nd Hnd. by apply elem_of_nil in Hnd.
  - rewrite processor_string_run.
    set (this1 := set_processors _ _).
    destruct (IH this1) as (this' & Hrun & Hps & Hn & Hd & Hc & Hh & Hreg & Hmod).
    destruct (assign_module_fields n (processor_entry d) this)
      as (Hn1 & Hd1 & Hp1 & Hc1 & Hh1).
    exists this'. split; [exact Hrun|].
    split; [rewrite Hps; unfold this1; simpl; rewrite Hp1, <- app_assoc; reflexivity|].
    split; [rewrite Hn; exact Hn1|]. split; [rewrite Hd; exact Hd1|].
    split; [rewrite Hc; exact Hc1|]. split; [rewrite Hh; exact Hh1|].
    split.
    + intros nd [->|Hnd]%elem_of_cons; [|by apply Hreg].
      apply (processor_chain_keeps nds this1 this' Hrun). simpl. unfold this1.
      rewrite (registered_frame (assign_module n (processor_entry d) this)) by done.
      rewrite registered_assign. eauto.
    + intros Hall. apply Forall_cons in Hall as [Hne Hall]. simpl in Hne.
      destruct (Hmod Hall) as [Hm Hp]. rewrite Hm, Hp. unfold this1.
      rewrite assign_module_plain by done. split; reflexivity.
Qed.

Lemma processor_chain_witness :
  exists this' : Package,
    run_calls (map (fun nd => CallProcessor (VStr nd.1) nd.2)
                 [("a", foo); ("__proto__", VNull); ("a", VNum 1)]) core = Some this' /\
    processors this' = [VStr "a"; VStr "__proto__"; VStr "a"] /\
    is_Some (registered this' "__proto__").
Proof.
  destruct (processor_chain [("a", foo); ("__proto__", VNull); ("a", VNum 1)] core)
    as (this' & Hrun & Hps & _ & _ & _ & _ & Hreg & _).
  exists this'. split; [exact Hrun|]. split; [exact Hps|].
  apply (Hreg ("__proto__", VNull)). set_solver.
Defined.

Lemma imap_nth_handler_name_shift (p e : string) (m : nat) (fns : list string) :
  imap (fun i => nth_handler_name p e (S m + i)) fns
  = imap ((fun i => nth_handler_name p e (m + i)) ∘ S) fns.
Proof. apply imap_ext. intros i fn _. simpl. f_equal. lia. Qed.

Lemma handler_name_nth (p e fn : string) (hs : list jsval) :
  VStr (handler_name p e fn hs) = nth_handler_name p e (length hs) fn.
Proof.
  unfold nth_handler_name. destruct (decide (fn = EmptyString)) as [->|Hfn].
  - by rewrite handler_name_anonymous.
  - by rewrite handler_name_named.
Qed.

Lemma plain_event_found (this : Package) (e : string) :
  plain_event this e -> found_handlers this e = VArr (handlers_of this e).
Proof.
  unfold plain_event, handlers_of. intros [l ->]%isArray_VArr. reflexivity.
Qed.

(** A chain of [eventHandler] calls with functions of any names, for one
    event that has a list of handlers on the package, or none and no
    member of [Object.prototype] of its name, never throws; the handlers
    of the event get one name per call appended in the order of the calls,
    the declared name where there is one and otherwise the made-up name
    whose number is the position in the whole list, named handlers
    counted; and the handlers of every other event stay as they were.
    (The bound keeps the numbers among those printed in plain digits.) *)
Theorem eventHandler_chain
    (e : string) (fs : list (string * string * list (string * jsval))) (this : Package) :
  plain_event this e ->
  (Z.of_nat (length (handlers_of this e) + length fs) < 10 ^ 21)%Z ->
  exists this' : Package,
    run_calls (map (fun f => CallEventHandler (VStr e) (VFun f.1.1 f.1.2 f.2)) fs) this
      = Some this' /\
    handlers_of this' e
      = (handlers_of this e
         ++ imap (fun i => nth_handler_name (name this) e
                             (length (handlers_of this e) + i))
                 (map (fun f => f.1.1) fs))%list /\
    (forall e' : string, e' <> e -> handlers this' !! e' = handlers this !! e') /\
    name this' = name this.
Proof.
  revert this. induction fs as [|[[fn src] ps] fs IH]; intros this Hplain Hlen; simpl.
  - exists this. rewrite app_nil_r. auto.
  - pose proof (plain_event_found this e Hplain) as Hfound.
    set (hs := handlers_of this e) in *.
    rewrite (eventHandler_run e fn src ps hs this Hfound);
      [|intros _; simpl in Hlen; lia].
    set (h := handler_name (name this) e fn hs).
    set (this1 := set_handlers _ _).
    destruct (assign_module_fields h (IFactory, VFun fn src ps) this)
      as (Hn1 & _ & _ & _ & Hh1).
    assert (found_handlers this1 e = VArr (hs ++ [VStr h])) as Hfound1.
    { apply (found_handlers_inserted this1 e _ (handlers this)).
      unfold this1. by rewrite handlers_set_handlers, Hh1. }
    assert (handlers_of this1 e = (hs ++ [VStr h])%list) as Hhs1
      by (by apply handlers_of_found).
    destruct (IH this1) as (this' & Hrun & Hhs & Hother & Hname).
    { unfold plain_event. by rewrite Hfound1. }
    { rewrite Hhs1, length_app. simpl in *. lia. }
    exists this'. split; [exact Hrun|]. split; [|split].
    + rewrite Hhs, Hhs1. unfold this1 at 1. simpl. rewrite Hn1.
      rewrite length_app. simpl. rewrite <- app_assoc. simpl.
      rewrite Nat.add_0_r. f_equal. unfold h. rewrite handler_name_nth. f_equal.
      replace (length hs + 1) with (S (length hs)) by lia.
      apply imap_nth_handler_name_shift.
    + intros e' He'. rewrite Hother by done. unfold this1.
      rewrite handlers_set_handlers, Hh1. by rewrite lookup_insert_ne.
    + rewrite Hname. exact Hn1.
Qed.

Lemma eventHandler_chain_witness :
  exists this' : Package,
    run_calls (map (fun f : string * string * list (string * jsval) =>
                      CallEventHandler (VStr "docsProcessed") (VFun f.1.1 f.1.2 f.2))
                 [("a", "function a() {}", []); (EmptyString, "function () {}", [])])
      core = Some this' /\
    handlers_of this' "docsProcessed" = [VStr "a"; VStr "core_docsProcessed_1"].
Proof.
  destruct (eventHandler_chain "docsProcessed"
              [("a", "function a() {}", []); (EmptyString, "function () {}", [])] core)
    as (this' & Hrun & Hhs & _).
  - reflexivity.
  - reflexivity.
  - exists this'. split; [exact Hrun|exact Hhs].
Defined.

(** * Which calls are accepted *)

Lemma resolved_function_iff (a b : jsval) :
  (exists n d, resolved a b n d /\ typeof d = "function") <->
  (exists s, a = VStr s /\ typeof b = "function") \/
  (exists fn src ps, a = VFun fn src ps /\ fn <> EmptyString).
Proof.
  split.
  - intros (n & d & [(Ha & -> & ->)|(Ha & -> & Hn & Ht)] & Hd).
    + apply isString_VStr in Ha as [s ->]. left. eauto.
    + apply String.eqb_eq, typeof_function in Hd as (fn & src & ps & ->).
      injection Hn as <-. apply truthy_VStr in Ht. right. eauto 6.
  - intros [(s & -> & Hb)|(fn & src & ps & -> & Hfn)].
    + exists (VStr s), b. split; [left; auto|exact Hb].
    + exists (VStr fn), (VFun fn src ps). split; [|reflexivity].
      right. repeat split. by apply truthy_VStr.
Qed.

(** [factory] and [type] accept exactly two shapes of call: a string name
    with a function, or a function with a non-empty declared name given
    alone. *)
Theorem service_registration_accepted (a b : jsval) (this : Package) :
  ((exists r this', factory a b this = (inr r, this')) <->
   (exists s, a = VStr s /\ typeof b = "function") \/
   (exists fn src ps, a = VFun fn src ps /\ fn <> EmptyString)) /\
  ((exists r this', type a b this = (inr r, this')) <->
   (exists s, a = VStr s /\ typeof b = "function") \/
   (exists fn src ps, a = VFun fn src ps /\ fn <> EmptyString)).
Proof.
  split; rewrite <- resolved_function_iff; split.
  - intros (r & this' & H). apply factory_ok in H as (n & d & Hr & Hd & _). eauto.
  - intros (n & d & Hr & Hd). do 2 eexists. apply (factory_run a b n d this Hr Hd).
  - intros (r & this' & H). apply type_ok in H as (n & d & Hr & Hd & _). eauto.
  - intros (n & d & Hr & Hd). do 2 eexists. apply (type_run a b n d this Hr Hd).
Qed.

(** Provided the conversion of the [name] of the first argument to a
    member name stays inside the embedding (no conversion method of the
    caller's to call, no number of 22 digits or more to print),
    [processor] accepts exactly the calls whose first argument is a
    string, whatever the definition is, or is a value other than [null]
    and [undefined] whose [name] is truthy and converts without a
    [TypeError]. *)
Theorem processor_accepted (a b : jsval) (this : Package) :
  (forall v, to_string HintString (get_own a "name") <> inl (Outside v)) ->
  ((exists r this', processor a b this = (inr r, this')) <->
   (exists s, a = VStr s) \/
   (a <> VNull /\ a <> VUndefined /\ truthy (get_own a "name") = true /\
    to_string HintString (get_own a "name") <> inl TypeError)).
Proof.
  intros Hin. split.
  - intros (r & this' & H).
    apply processor_ok in H as (n & d & k & [(Ha & -> & ->)|(Ha & -> & Hn & Ht)] & Hk & _).
    + left. by apply isString_VStr.
    + right. apply get_prop_own in Hn as Hn'. subst n.
      destruct a; try discriminate; repeat split; auto; congruence.
  - intros [[s ->]|(Hnull & Hundef & Ht & Hk)].
    + do 2 eexists. apply processor_string_run.
    + destruct (isString a) eqn:Ha.
      * apply isString_VStr in Ha as [s ->]. do 2 eexists. apply processor_string_run.
      * destruct (to_string HintString (get_own a "name")) as [[msg| |v]|k] eqn:Hconv.
        -- by apply to_string_not_Error in Hconv.
        -- contradiction.
        -- by destruct (Hin v).
        -- do 2 eexists.
           apply (processor_run a b (get_own a "name") a k this); [|exact Hconv].
           right. repeat split; auto. destruct a; try contradiction; reflexivity.
Qed.

Lemma processor_accepted_witness :
  (exists r this',
      processor (VObj [("name", VArr [VStr "a"; VNum 1])]) VUndefined core = (inr r, this')) /\
  ~ (exists r this',
      processor (VObj [("name", VObj [("toString", VNum 1)])]) VUndefined core
      = (inr r, this')).
Proof.
  split.
  - apply (processor_accepted (VObj [("name", VArr [VStr "a"; VNum 1])]) VUndefined core).
    + discriminate.
    + right. repeat split; discriminate.
  - intros H.
    apply (processor_accepted (VObj [("name", VObj [("toString", VNum 1)])])
             VUndefined core) in H.
    + destruct H as [[s [=]]|(_ & _ & _ & Hk)]. by apply Hk.
    + discriminate.
Defined.

(** With a first argument that is not a string, the three registration
    methods look for its [name] before anything else: on [null] and
    [undefined] the read throws a [TypeError]; on any other value without a
    truthy [name], an anonymous function or a number for instance, each
    method throws its own missing-name error, whatever the type of the
    value; the package is as it was. *)
Theorem missing_name_refused (a b : jsval) (this : Package) :
  typeof a <> "string" ->
  (a = VNull \/ a = VUndefined ->
   processor a b this = (inl TypeError, this) /\
   factory a b this = (inl TypeError, this) /\
   type a b this = (inl TypeError, this)) /\
  (a <> VNull -> a <> VUndefined -> truthy (get_own a "name") = false ->
   processor a b this =
     (inl (Error "processorDef must be an object or a function with a name"), this) /\
   factory a b this = (inl (Error "serviceFactory must have a name"), this) /\
   type a b this = (inl (Error "ServiceType must have a name"), this)).
Proof.
  intros Ha. apply String.eqb_neq in Ha. split.
  - intros [->| ->]; repeat split; reflexivity.
  - intros Hnull Hundef Ht.
    unfold processor, factory, type, isString. run_method. rewrite Ha. simpl.
    destruct a; try contradiction; try discriminate; simpl in *;
      rewrite ?Ht; simpl; repeat split; reflexivity.
Qed.

Lemma missing_name_refused_witness :
  factory VNull foo core = (inl TypeError, core) /\
  factory anon VUndefined core = (inl (Error "serviceFactory must have a name"), core) /\
  type (VNum 42) VUndefined core = (inl (Error "ServiceType must have a name"), core) /\
  processor (VObj []) VUndefined core =
    (inl (Error "processorDef must be an object or a function with a name"), core).
Proof.
  split; [|split; [|split]].
  - apply (proj1 (missing_name_refused VNull foo core ltac:(discriminate))). by left.
  - apply (proj2 (missing_name_refused anon VUndefined core ltac:(discriminate)));
      (discriminate || reflexivity).
  - apply (proj2 (missing_name_refused (VNum 42) VUndefined core ltac:(discriminate)));
      (discriminate || reflexivity).
  - apply (proj2 (missing_name_refused (VObj []) VUndefined core ltac:(discriminate)));
      (discriminate || reflexivity).
Defined.

(** With a first argument that is not a string, the second argument of
    [processor], [factory] and [type] plays no part: outcome and package
    are the same whatever it is. *)
Theorem second_argument_ignored (a b b' : jsval) (this : Package) :
  typeof a <> "string" ->
  processor a b this = processor a b' this /\
  factory a b this = factory a b' this /\
  type a b this = type a b' this.
Proof.
  intros Ha%String.eqb_neq.
  unfold processor, factory, type, isString. run_method. rewrite Ha. auto.
Qed.

Lemma second_argument_ignored_witness :
  processor foo (VNum 1) core = processor foo VUndefined core /\
  factory foo (VNum 1) core = factory foo VUndefined core /\
  type foo (VNum 1) core = type foo VUndefined core.
Proof. apply (second_argument_ignored foo (VNum 1) VUndefined core). discriminate. Defined.

(** * Composition of registrations *)

(** Registrations under different names do not interfere: let two calls
    of [processor], [factory] or [type], each alone on an empty package,
    write [e1] under [n1] and [e2] under [n2], with [n1] and [n2] different.
    Then on every package, in either order, they leave the same module,
    holding [e1] under [n1] and [e2] under [n2]. *)
Theorem registrations_commute
    (c1 c2 : call) (n1 n2 : string) (e1 e2 : InjectionType * jsval)
    (fresh p1 p2 : Package) :
  is_registration c1 = true -> is_registration c2 = true ->
  module fresh = ∅ ->
  run_call c1 fresh = (inr p1, p1) -> module p1 = {[n1 := e1]} ->
  run_call c2 fresh = (inr p2, p2) -> module p2 = {[n2 := e2]} ->
  n1 <> n2 ->
  forall this : Package,
    module (run_all [c1; c2] this) = module (run_all [c2; c1] this) /\
    module (run_all [c1; c2] this) !! n1 = Some e1 /\
    module (run_all [c1; c2] this) !! n2 = Some e2.
Proof.
  intros Hc1 Hc2 Hfresh H1 Hp1 H2 Hp2 Hne this.
  destruct (registration_writes c1 _ _ _ Hc1 H1) as (k1 & ent1 & Hall1).
  destruct (registration_writes c2 _ _ _ Hc2 H2) as (k2 & ent2 & Hall2).
  destruct (Hall1 fresh) as (q1 & Hq1 & Hm1 & _).
  destruct (Hall2 fresh) as (q2 & Hq2 & Hm2 & _).
  assert (q1 = p1) as -> by congruence. assert (q2 = p2) as -> by congruence.
  rewrite Hp1 in Hm1. rewrite Hp2 in Hm2. symmetry in Hm1, Hm2.
  apply (assign_module_empty_inv _ _ _ _ _ Hfresh) in Hm1 as (-> & -> & Hins1).
  apply (assign_module_empty_inv _ _ _ _ _ Hfresh) in Hm2 as (-> & -> & Hins2).
  simpl.
  destruct (Hall1 this) as (t1 & Hr1 & Hmod1 & _).
  destruct (Hall2 t1) as (t12 & Hr12 & Hmod12 & _).
  destruct (Hall2 this) as (t2 & Hr2 & Hmod2 & _).
  destruct (Hall1 t2) as (t21 & Hr21 & Hmod21 & _).
  rewrite Hins1 in Hmod1, Hmod21. rewrite Hins2 in Hmod2, Hmod12.
  simpl in Hmod1, Hmod12, Hmod2, Hmod21.
  rewrite Hr1. simpl. rewrite Hr12. simpl. rewrite Hr2. simpl. rewrite Hr21. simpl.
  rewrite Hmod12, Hmod1, Hmod21, Hmod2. split; [|split].
  - by apply insert_insert_ne.
  - rewrite lookup_insert_ne by done. apply lookup_insert_eq.
  - apply lookup_insert_eq.
Qed.

Lemma registrations_commute_witness :
  module (run_all [CallType (VStr "x") foo; CallProcessor (VStr "y") VNull] core)
  = module (run_all [CallProcessor (VStr "y") VNull; CallType (VStr "x") foo] core) /\
  module (run_all [CallType (VStr "x") foo; CallProcessor (VStr "y") VNull] core) !! "x"
  = Some (IType, foo) /\
  module (run_all [CallType (VStr "x") foo; CallProcessor (VStr "y") VNull] core) !! "y"
  = Some (IValue, VNull).
Proof.
  apply (registrations_commute
           (CallType (VStr "x") foo) (CallProcessor (VStr "y") VNull)
           "x" "y" (IType, foo) (IValue, VNull) core
           (run_call (CallType (VStr "x") foo) core).2
           (run_call (CallProcessor (VStr "y") VNull) core).2);
    try reflexivity; try discriminate; apply insert_empty.
Defined.

(** A successful [factory] or [type] call made again on the package it
    left succeeds and changes nothing. *)
Theorem service_registration_idempotent (a b : jsval) (this r this1 : Package) :
  (factory a b this = (inr r, this1) -> factory a b this1 = (inr this1, this1)) /\
  (type a b this = (inr r, this1) -> type a b this1 = (inr this1, this1)).
Proof.
  split; intros H.
  - apply factory_ok in H as (s & d & Hr & Hd & -> & _).
    rewrite (factory_run a b (VStr s) d _ Hr Hd). simpl.
    by rewrite assign_module_twice.
  - apply type_ok in H as (s & d & Hr & Hd & -> & _).
    rewrite (type_run a b (VStr s) d _ Hr Hd). simpl.
    by rewrite assign_module_twice.
Qed.

Lemma service_registration_idempotent_witness :
  factory (VStr "x") foo (factory (VStr "x") foo core).2
  = (inr (factory (VStr "x") foo core).2, (factory (VStr "x") foo core).2).
Proof.
  apply (proj1 (service_registration_idempotent (VStr "x") foo core
                  (factory (VStr "x") foo core).2 (factory (VStr "x") foo core).2)).
  reflexivity.
Defined.

(** * Made-up names across events *)

Lemma made_up_name_inj (p e : string) (n m : nat) :
  p ++ "_" ++ e ++ "_" ++ pretty n = p ++ "_" ++ e ++ "_" ++ pretty m -> n = m.
Proof.
  intros H.
  apply (inj (String.app p)) in H. apply (inj (String.app "_")) in H.
  apply (inj (String.app e)) in H. apply (inj (String.app "_")) in H.
  apply (inj pretty) in H. exact H.
Qed.

Lemma pretty_N_char_no_underscore (x : N) : Ascii.eqb (pretty_N_char x) "_"%char = false.
Proof. unfold pretty_N_char. repeat case_match; reflexivity. Qed.

Lemma pretty_N_go_no_underscore (x : N) :
  forall s, no_underscore s = true -> no_underscore (pretty_N_go x s) = true.
Proof.
  induction (N.lt_wf_0 x) as [x _ IH]; intros s Hs.
  destruct (decide (x = 0)%N) as [->|Hx]; [by rewrite pretty_N_go_0|].
  rewrite pretty_N_go_step by lia. apply IH.
  - apply N.div_lt; lia.
  - simpl. by rewrite pretty_N_char_no_underscore.
Qed.

Lemma pretty_nat_no_underscore (n : nat) : no_underscore (pretty n) = true.
Proof.
  unfold pretty, pretty_nat, pretty, pretty_N.
  case_decide; [reflexivity|]. by apply pretty_N_go_no_underscore.
Qed.

Lemma append_nil (t : string) : EmptyString ++ t = t.
Proof. reflexivity. Qed.

Lemma append_cons (c : ascii) (s t : string) : String c s ++ t = String c (s ++ t).
Proof. reflexivity. Qed.

Lemma no_underscore_app (x y : string) :
  no_underscore (x ++ String "_"%char y) = false.
Proof.
  induction x as [|c x IH]; [reflexivity|].
  rewrite append_cons. simpl. rewrite IH. apply andb_false_r.
Qed.

Lemma event_and_number_inj (e1 e2 d1 d2 : string) :
  no_underscore d1 = true -> no_underscore d2 = true ->
  e1 ++ "_" ++ d1 = e2 ++ "_" ++ d2 -> e1 = e2 /\ d1 = d2.
Proof.
  intros H1 H2. revert e2.
  induction e1 as [|c e1 IH]; intros [|c' e2] Heq;
    rewrite ?append_cons, ?append_nil in Heq.
  - injection Heq as Heq. auto.
  - injection Heq as _ Heq. rewrite Heq in H1. by rewrite no_underscore_app in H1.
  - injection Heq as _ Heq. rewrite <- Heq in H2. by rewrite no_underscore_app in H2.
  - injection Heq as -> Heq. destruct (IH e2 Heq) as [-> ->]. auto.
Qed.

Lemma handlers_of_inserted (t : Package) (e : string) (l : list jsval) :
  handlers_of (set_handlers <[e := VArr l]> t) e = l.
Proof.
  apply handlers_of_found.
  apply (found_handlers_inserted _ e l (handlers t)). reflexivity.
Qed.

(** The made-up name tells the event: two functions without a declared
    name, registered as handlers of different events on packages of the
    same name (the same package at two moments, for instance), each event
    with a list of handlers or none and nothing inherited in its place,
    are registered under different names, whatever handlers the events
    have.  (The bounds keep the numbers among those printed in plain
    digits.) *)
Theorem made_up_names_differ_across_events
    (this1 this2 : Package) (e1 e2 src1 src2 : string)
    (ps1 ps2 : list (string * jsval)) :
  name this1 = name this2 -> e1 <> e2 ->
  plain_event this1 e1 -> plain_event this2 e2 ->
  (Z.of_nat (length (handlers_of this1 e1)) < 10 ^ 21)%Z ->
  (Z.of_nat (length (handlers_of this2 e2)) < 10 ^ 21)%Z ->
  last (handlers_of (eventHandler (VStr e1) (VFun EmptyString src1 ps1) this1).2 e1) <>
  last (handlers_of (eventHandler (VStr e2) (VFun EmptyString src2 ps2) this2).2 e2).
Proof.
  intros Hname Hne Hp1 Hp2 Hl1 Hl2.
  rewrite (eventHandler_run e1 _ _ _ _ this1 (plain_event_found _ _ Hp1)) by done.
  rewrite (eventHandler_run e2 _ _ _ _ this2 (plain_event_found _ _ Hp2)) by done.
  cbv zeta. unfold snd. rewrite !handlers_of_inserted.
  rewrite !last_snoc, !handler_name_anonymous.
  intros [= H]. rewrite Hname in H.
  apply (inj (String.app (name this2))) in H. apply (inj (String.app "_")) in H.
  apply event_and_number_inj in H as [He _]; auto using pretty_nat_no_underscore.
Qed.

Lemma made_up_names_differ_across_events_witness :
  last (handlers_of (eventHandler (VStr "a") anon core).2 "a") <>
  last (handlers_of
          (eventHandler (VStr "a_0") anon (eventHandler (VStr "a") anon core).2).2
          "a_0").
Proof.
  apply (made_up_names_differ_across_events core (eventHandler (VStr "a") anon core).2
           "a" "a_0" "function () {}" "function () {}" [] []);
    try reflexivity; discriminate.
Defined.
